(** * Order book reconstruction (MBO to MBP-10): model and properties

    A shallow embedding of [types.hpp], [orderbook.hpp], [orderbook.cpp] and
    [csv_parser.cpp].  Fixed-width integers are integers of [Z] with the
    wrap-around of the C++ type written out; the hash maps
    ([std::unordered_map]) and the price-ordered [std::map] are finite maps
    of stdpp, the latter read in the order of its comparator. *)

From Stdlib Require Import ZArith Ascii String List Lia.
From stdpp Require Import base decidable option numbers list sorting
  strings pretty gmap fin_maps.

Local Open Scope Z_scope.

(** ** Scalar types ([types.hpp]) *)

(** [price_t = int64_t], [size_t = uint32_t], [order_id_t = uint64_t]: all
    carried by [Z].  Arithmetic on the unsigned types wraps. *)
Definition wrap32 (z : Z) : Z := z mod 2 ^ 32.
Definition wrap64 (z : Z) : Z := z mod 2 ^ 64.
Definition wrap16 (z : Z) : Z := z mod 2 ^ 16.

Definition MAX_DEPTH : nat := 10.
Definition PRICE_SCALE : Z := 1000000.

(** [enum class Action : char]; [REPLACE] and [CLEAR] are the same
    enumerator value ('R'). *)
Inductive Action : Set := ADD | CANCEL | TRADE | FILL | REPLACE.
Definition CLEAR : Action := REPLACE.

Inductive Side : Set := BID | ASK | NEUTRAL.

(** [enum class RecordType : uint16_t]: the parser casts any parsed number
    to it, so it is kept as the underlying number. *)
Definition RecordType : Set := Z.
Definition MBO : RecordType := 160.
Definition MBP : RecordType := 10.

#[global] Instance Action_eq_dec : EqDecision Action.
Proof. solve_decision. Defined.
#[global] Instance Side_eq_dec : EqDecision Side.
Proof. solve_decision. Defined.

Record Timestamp : Set := mkTimestamp {
  ts_recv : Z;
  ts_event : Z
}.

Record MBORecord : Set := mkMBORecord {
  mbo_timestamp : Timestamp;
  mbo_rtype : RecordType;
  mbo_publisher_id : Z;
  mbo_instrument_id : Z;
  mbo_action : Action;
  mbo_side : Side;
  mbo_price : Z;
  mbo_size : Z;
  mbo_channel_id : Z;
  mbo_order_id : Z;
  mbo_flags : Z;
  mbo_ts_in_delta : Z;
  mbo_sequence : Z;
  mbo_symbol : string
}.

(** [struct PriceLevel]: one slot of the depth projection. *)
Record PriceLevel : Set := mkPriceLevel {
  pl_price : Z;
  pl_size : Z;
  pl_count : Z
}.

(** [PriceLevel{}], the filler of unused slots. *)
Definition sentinel : PriceLevel := mkPriceLevel 0 0 0.

#[global] Instance PriceLevel_eq_dec : EqDecision PriceLevel.
Proof. solve_decision. Defined.

Record MBPRecord : Set := mkMBPRecord {
  mbp_timestamp : Timestamp;
  mbp_rtype : RecordType;
  mbp_publisher_id : Z;
  mbp_instrument_id : Z;
  mbp_action : Action;
  mbp_side : Side;
  mbp_depth : Z;
  mbp_price : Z;
  mbp_size : Z;
  mbp_flags : Z;
  mbp_ts_in_delta : Z;
  mbp_sequence : Z;
  mbp_bid_levels : list PriceLevel;
  mbp_ask_levels : list PriceLevel;
  mbp_symbol : string;
  mbp_order_id : Z
}.

(** The counters of [PerformanceStats] ([std::size_t], 64 bits).  The two
    duration fields hold wall-clock measurements and are left out. *)
Record PerformanceStats : Set := mkStats {
  records_processed : Z;
  trades_processed : Z;
  orders_added : Z;
  orders_cancelled : Z
}.

(** ** One side of the book ([OrderbookSide]) *)

(** [struct OrderbookPriceLevel]. *)
Record OrderbookPriceLevel : Type := mkLevel {
  lvl_price : Z;
  total_size : Z;
  order_count : Z;
  orders : gmap Z Z
}.

(** What [levels_[price]] default-constructs for an absent key. *)
Definition new_level : OrderbookPriceLevel := mkLevel 0 0 0 ∅.

Record OrderbookSide : Type := mkSide {
  levels_ : gmap Z OrderbookPriceLevel;
  order_lookup_ : gmap Z (Z * Z)
}.

Definition empty_side : OrderbookSide := mkSide ∅ ∅.

Definition remove_level_if_empty (price : Z) (s : OrderbookSide) : OrderbookSide :=
  match levels_ s !! price with
  | Some level =>
      if total_size level =? 0
      then mkSide (delete price (levels_ s)) (order_lookup_ s)
      else s
  | None => s
  end.

Definition update_level (price order_id size : Z) (is_add : bool)
    (s : OrderbookSide) : OrderbookSide :=
  let level := default new_level (levels_ s !! price) in
  let level' :=
    if is_add then
      mkLevel price
              (wrap32 (total_size level + size))
              (wrap32 (order_count level + 1))
              (<[order_id := size]> (orders level))
    else
      match orders level !! order_id with
      | Some order_size =>
          let total := wrap32 (total_size level - Z.min order_size size) in
          mkLevel price total
                  (if total =? 0 then 0 else wrap32 (order_count level - 1))
                  (delete order_id (orders level))
      | None =>
          mkLevel price (total_size level) (order_count level) (orders level)
      end in
  remove_level_if_empty price
    (mkSide (<[price := level']> (levels_ s)) (order_lookup_ s)).

Definition update_order_lookup (order_id price size : Z) (is_add : bool)
    (s : OrderbookSide) : OrderbookSide :=
  if is_add then
    mkSide (levels_ s) (<[order_id := (price, size)]> (order_lookup_ s))
  else
    match order_lookup_ s !! order_id with
    | Some (order_price, order_size) =>
        if order_size <=? size
        then mkSide (levels_ s) (delete order_id (order_lookup_ s))
        else mkSide (levels_ s)
               (<[order_id := (order_price, wrap32 (order_size - size))]>
                  (order_lookup_ s))
    | None => s
    end.

Definition add_order (order_id price size : Z) (s : OrderbookSide) : OrderbookSide :=
  update_order_lookup order_id price size true
    (update_level price order_id size true s).

Definition cancel_order (order_id price size : Z) (s : OrderbookSide) : OrderbookSide :=
  update_order_lookup order_id price size false
    (update_level price order_id size false s).

(** The [price] argument is unnamed in the source: the price comes from the
    order index. *)
Definition trade_order (order_id price size : Z) (s : OrderbookSide) : OrderbookSide :=
  match order_lookup_ s !! order_id with
  | Some (order_price, order_size) =>
      if order_size <=? size then
        update_order_lookup order_id order_price order_size false
          (update_level order_price order_id order_size false s)
      else
        update_order_lookup order_id order_price size false
          (update_level order_price order_id size false s)
  | None => s
  end.

(** Iteration over [levels_].  The member is declared
    [std::map<price_t, OrderbookPriceLevel, std::greater<price_t>>] for the
    one class that serves both sides, so a traversal visits the keys from
    the greatest price to the least. *)
Definition price_before (a b : Z * OrderbookPriceLevel) : Prop := b.1 ≤ a.1.

#[global] Instance price_before_dec a b : Decision (price_before a b).
Proof. unfold price_before. apply _. Defined.

Definition levels_in_order (m : gmap Z OrderbookPriceLevel)
    : list (Z * OrderbookPriceLevel) :=
  merge_sort price_before (map_to_list m).

(** The loop of [get_top_levels]: write slot [index], stop at [MAX_DEPTH]. *)
Fixpoint fill_levels (entries : list (Z * OrderbookPriceLevel)) (index : nat)
    (result : list PriceLevel) : list PriceLevel :=
  match entries with
  | [] => result
  | (price, level) :: rest =>
      if decide (MAX_DEPTH ≤ index)%nat then result
      else fill_levels rest (S index)
             (<[index := mkPriceLevel price (total_size level) (order_count level)]>
                result)
  end.

Definition get_top_levels (s : OrderbookSide) : list PriceLevel :=
  fill_levels (levels_in_order (levels_ s)) 0 (replicate MAX_DEPTH sentinel).

Definition has_order (order_id : Z) (s : OrderbookSide) : bool :=
  bool_decide (is_Some (order_lookup_ s !! order_id)).

Definition get_order_size (order_id : Z) (s : OrderbookSide) : Z :=
  match order_lookup_ s !! order_id with
  | Some (_, order_size) => order_size
  | None => 0
  end.

Definition side_empty (s : OrderbookSide) : bool :=
  bool_decide (order_lookup_ s = ∅).

(** ** The book ([Orderbook]) *)

(** [struct TradeSequence], an entry of [pending_trades_]. *)
Record TradeSequence : Set := mkTradeSequence {
  seq_order_id : Z;
  seq_side : Side;
  seq_price : Z;
  remaining_size : Z;
  seq_timestamp : Z
}.

Record Orderbook : Type := mkOrderbook {
  bid_side_ : OrderbookSide;
  ask_side_ : OrderbookSide;
  stats_ : PerformanceStats;
  pending_trades_ : gmap Z TradeSequence
}.

(** [Orderbook::Orderbook()]: two empty sides, zeroed counters, no pending
    trade. *)
Definition new_orderbook : Orderbook :=
  mkOrderbook empty_side empty_side (mkStats 0 0 0 0) ∅.

Definition handle_add_order (record : MBORecord) (b : Orderbook) : Orderbook :=
  match mbo_side record with
  | BID =>
      mkOrderbook
        (add_order (mbo_order_id record) (mbo_price record) (mbo_size record)
           (bid_side_ b))
        (ask_side_ b) (stats_ b) (pending_trades_ b)
  | ASK =>
      mkOrderbook (bid_side_ b)
        (add_order (mbo_order_id record) (mbo_price record) (mbo_size record)
           (ask_side_ b))
        (stats_ b) (pending_trades_ b)
  | NEUTRAL => b
  end.

Definition handle_cancel_order (record : MBORecord) (b : Orderbook) : Orderbook :=
  match mbo_side record with
  | BID =>
      mkOrderbook
        (cancel_order (mbo_order_id record) (mbo_price record) (mbo_size record)
           (bid_side_ b))
        (ask_side_ b) (stats_ b) (pending_trades_ b)
  | ASK =>
      mkOrderbook (bid_side_ b)
        (cancel_order (mbo_order_id record) (mbo_price record) (mbo_size record)
           (ask_side_ b))
        (stats_ b) (pending_trades_ b)
  | NEUTRAL => b
  end.

Definition handle_trade_sequence (record : MBORecord) (b : Orderbook) : Orderbook :=
  match mbo_action record with
  | TRADE =>
      let seq :=
        mkTradeSequence (mbo_order_id record) (mbo_side record)
          (mbo_price record) (mbo_size record)
          (ts_event (mbo_timestamp record)) in
      mkOrderbook (bid_side_ b) (ask_side_ b) (stats_ b)
        (<[mbo_order_id record := seq]> (pending_trades_ b))
  | FILL =>
      match pending_trades_ b !! mbo_order_id record with
      | Some seq =>
          let seq' :=
            mkTradeSequence (seq_order_id seq) (seq_side seq) (seq_price seq)
              (wrap32 (remaining_size seq - mbo_size record))
              (seq_timestamp seq) in
          mkOrderbook (bid_side_ b) (ask_side_ b) (stats_ b)
            (<[mbo_order_id record := seq']> (pending_trades_ b))
      | None => b
      end
  | CANCEL =>
      match pending_trades_ b !! mbo_order_id record with
      | Some seq =>
          let opposite_side := if decide (seq_side seq = BID) then ASK else BID in
          let pending := delete (mbo_order_id record) (pending_trades_ b) in
          if decide (opposite_side = BID) then
            mkOrderbook
              (trade_order (mbo_order_id record) (seq_price seq)
                 (remaining_size seq) (bid_side_ b))
              (ask_side_ b) (stats_ b) pending
          else
            mkOrderbook (bid_side_ b)
              (trade_order (mbo_order_id record) (seq_price seq)
                 (remaining_size seq) (ask_side_ b))
              (stats_ b) pending
      | None => b
      end
  | _ => b
  end.

Definition update_stats (record : MBORecord) (b : Orderbook) : Orderbook :=
  let st := stats_ b in
  let processed := wrap64 (records_processed st + 1) in
  let st' :=
    match mbo_action record with
    | TRADE =>
        mkStats processed (wrap64 (trades_processed st + 1))
          (orders_added st) (orders_cancelled st)
    | ADD =>
        mkStats processed (trades_processed st)
          (wrap64 (orders_added st + 1)) (orders_cancelled st)
    | CANCEL =>
        mkStats processed (trades_processed st)
          (orders_added st) (wrap64 (orders_cancelled st + 1))
    | _ =>
        mkStats processed (trades_processed st)
          (orders_added st) (orders_cancelled st)
    end in
  mkOrderbook (bid_side_ b) (ask_side_ b) st' (pending_trades_ b).

Definition process_mbo_record (record : MBORecord) (b : Orderbook) : Orderbook :=
  if bool_decide (mbo_action record = CLEAR) && (mbo_sequence record =? 0) then b
  else
    let b' :=
      match mbo_action record with
      | ADD => handle_add_order record b
      | CANCEL => handle_cancel_order record b
      | TRADE | FILL => handle_trade_sequence record b
      | _ => b
      end in
    update_stats record b'.

(** A [const] member function: it reads the book and returns the record. *)
Definition generate_mbp_record (record : MBORecord) (b : Orderbook) : MBPRecord :=
  mkMBPRecord
    (mbo_timestamp record)
    MBP
    (mbo_publisher_id record)
    (mbo_instrument_id record)
    (mbo_action record)
    (mbo_side record)
    0
    (mbo_price record)
    (mbo_size record)
    (mbo_flags record)
    (mbo_ts_in_delta record)
    (mbo_sequence record)
    (get_top_levels (bid_side_ b))
    (get_top_levels (ask_side_ b))
    (mbo_symbol record)
    (mbo_order_id record).

(** The event loop of [OrderbookProcessor::process_chunk] over records that
    are already parsed: apply, then snapshot.  It returns the final book
    and the snapshots in order. *)
Fixpoint process_records (records : list MBORecord) (b : Orderbook)
    : Orderbook * list MBPRecord :=
  match records with
  | [] => (b, [])
  | record :: rest =>
      let b' := process_mbo_record record b in
      let mbp_record := generate_mbp_record record b' in
      let '(b'', out) := process_records rest b' in
      (b'', mbp_record :: out)
  end.

(** Applying a stream without taking snapshots. *)
Definition apply_records (records : list MBORecord) (b : Orderbook) : Orderbook :=
  foldl (fun acc record => process_mbo_record record acc) b records.

(** ** The CSV reader ([CSVParser]) *)

(** The tokenizer of [parse_mbo_line]: every comma closes a field; what
    follows the last comma is a field only when it is not empty
    ([start < view.size()]).  [field] holds the characters read since the
    last comma. *)
Fixpoint split_from (rest field : string) : list string :=
  match rest with
  | EmptyString => if decide (field = EmptyString) then [] else [field]
  | String c rest' =>
      if decide (c = ","%char) then field :: split_from rest' EmptyString
      else split_from rest' (field +:+ String c EmptyString)
  end.

Definition split_fields (line : string) : list string :=
  split_from line EmptyString.

Definition char_code (c : ascii) : Z := Z.of_N (N_of_ascii c).

(** [std::stoul] and [std::stoull] in base 10 on a platform where both
    [unsigned long] and [unsigned long long] have 64 bits: leading white
    space, an optional sign, then digits; trailing text is ignored.  No
    digit throws [std::invalid_argument], a magnitude above [2^64 - 1]
    throws [std::out_of_range] (both [None] here); a minus sign negates
    modulo [2^64]. *)
Definition isspace (c : ascii) : bool :=
  let n := char_code c in (n =? 32) || ((9 <=? n) && (n <=? 13)).

Fixpoint skip_space (s : string) : string :=
  match s with
  | String c rest => if isspace c then skip_space rest else s
  | EmptyString => s
  end.

Definition digit_value (c : ascii) : option Z :=
  let n := char_code c in
  if (48 <=? n) && (n <=? 57) then Some (n - 48) else None.

Fixpoint read_digits (s : string) (acc : option Z) : option Z :=
  match s with
  | String c rest =>
      match digit_value c with
      | Some d => read_digits rest (Some (10 * default 0 acc + d))
      | None => acc
      end
  | EmptyString => acc
  end.

Definition parse_unsigned (s : string) : option Z :=
  let s1 := skip_space s in
  let '(negative, s2) :=
    match s1 with
    | String "-"%char rest => (true, rest)
    | String "+"%char rest => (false, rest)
    | _ => (false, s1)
    end in
  match read_digits s2 None with
  | None => None
  | Some v =>
      if 2 ^ 64 <=? v then None
      else Some (if negative : bool then wrap64 (- v) else v)
  end.

Definition stoul : string → option Z := parse_unsigned.
Definition stoull : string → option Z := parse_unsigned.

Definition parse_action (action : ascii) : Action :=
  if decide (action = "A"%char) then ADD
  else if decide (action = "C"%char) then CANCEL
  else if decide (action = "T"%char) then TRADE
  else if decide (action = "F"%char) then FILL
  else if decide (action = "R"%char) then REPLACE
  else ADD.

Definition parse_side (side : ascii) : Side :=
  if decide (side = "B"%char) then BID
  else if decide (side = "A"%char) then ASK
  else if decide (side = "N"%char) then NEUTRAL
  else NEUTRAL.

(** [str[0]] of a [std::string]: the terminating NUL when [str] is empty. *)
Definition first_char (str : string) : ascii :=
  match str with
  | String c _ => c
  | EmptyString => zero
  end.

(** [str[i] - '0'] for a position inside the string. *)
Definition digit_at (str : string) (i : nat) : Z :=
  char_code (default zero (String.get i str)) - 48.

Section Parser.
(** The two library calls whose results depend on floating point and on
    the time zone of the process are parameters:
    - [stod] is [std::stod] ([None] when it throws) and [scaled_price d]
      is [static_cast<price_t>(d * PRICE_SCALE)];
    - [mktime year mon mday hour min sec] is [std::mktime] on a [tm] with
      these fields. *)
Context {double : Type}.
Variable stod : string → option double.
Variable scaled_price : double → Z.
Variable mktime : Z → Z → Z → Z → Z → Z → Z.

Definition parse_timestamp (str : string) : Z :=
  if decide (String.length str < 23)%nat then 0
  else
    let d := digit_at str in
    let tm_year := d 0%nat * 1000 + d 1%nat * 100 + d 2%nat * 10 + d 3%nat - 1900 in
    let tm_mon := d 5%nat * 10 + d 6%nat - 1 in
    let tm_mday := d 8%nat * 10 + d 9%nat in
    let tm_hour := d 11%nat * 10 + d 12%nat in
    let tm_min := d 14%nat * 10 + d 15%nat in
    let tm_sec := d 17%nat * 10 + d 18%nat in
    let time := mktime tm_year tm_mon tm_mday tm_hour tm_min tm_sec in
    let nanoseconds :=
      if decide (30 ≤ String.length str)%nat then
        d 20%nat * 100000000 + d 21%nat * 10000000 + d 22%nat * 1000000
        + d 23%nat * 100000 + d 24%nat * 10000 + d 25%nat * 1000
        + d 26%nat * 100 + d 27%nat * 10 + d 28%nat
      else 0 in
    time * 1000000000 + nanoseconds.

Definition parse_price (str : string) : option Z :=
  if decide (str = EmptyString) then Some 0
  else scaled_price <$> stod str.

(** [None] is [std::nullopt]; inside the [try] block a [None] of a
    library call is the exception that the [catch] turns into
    [std::nullopt]. *)
Definition parse_mbo_line (line : string) : option MBORecord :=
  if decide (line = EmptyString) then None
  else
    match split_fields line with
    | [f_ts_recv; f_ts_event; f_rtype; f_publisher; f_instrument; f_action;
       f_side; f_price; f_size; f_channel; f_order_id; f_flags;
       f_ts_in_delta; f_sequence; f_symbol] =>
        let recv := parse_timestamp f_ts_recv in
        let event := parse_timestamp f_ts_event in
        rtype ← stoul f_rtype;
        publisher_id ← stoul f_publisher;
        instrument_id ← stoul f_instrument;
        let action := parse_action (first_char f_action) in
        let side := parse_side (first_char f_side) in
        price ← parse_price f_price;
        size ← stoul f_size;
        channel_id ← stoul f_channel;
        order_id ← stoull f_order_id;
        flags ← stoul f_flags;
        ts_in_delta ← stoul f_ts_in_delta;
        sequence ← stoull f_sequence;
        Some (mkMBORecord (mkTimestamp recv event) (wrap16 rtype)
                (wrap16 publisher_id) (wrap32 instrument_id) action side
                price (wrap32 size) (wrap16 channel_id) order_id
                (wrap32 flags) (wrap32 ts_in_delta) sequence f_symbol)
    | _ => None
    end.
End Parser.

(** ** The remaining members of [OrderbookSide] and [Orderbook] *)

(** [OrderbookSide::clear], [size] and [empty] ([side_empty] above); [size]
    counts the entries of the order index. *)
Definition side_clear (s : OrderbookSide) : OrderbookSide := mkSide ∅ ∅.

Definition side_size (s : OrderbookSide) : nat := size (order_lookup_ s).

Definition get_stats (b : Orderbook) : PerformanceStats := stats_ b.

Definition reset_stats (b : Orderbook) : Orderbook :=
  mkOrderbook (bid_side_ b) (ask_side_ b) (mkStats 0 0 0 0) (pending_trades_ b).

(** ** Writing rows ([CSVParser::format_mbp_record]) *)

(** The enumerator values of [Action] and [Side] ([types.hpp]), which
    [static_cast<char>] writes. *)
Definition action_char (a : Action) : ascii :=
  match a with
  | ADD => "A" | CANCEL => "C" | TRADE => "T" | FILL => "F" | REPLACE => "R"
  end%char.

Definition side_char (s : Side) : ascii :=
  match s with
  | BID => "B" | ASK => "A" | NEUTRAL => "N"
  end%char.

Section Formatter.
(** [format_timestamp] goes through [std::gmtime] and [format_price] through
    [double]; both are parameters.  [operator<<] on the integer fields
    writes their decimal digits ([pretty]). *)
Variable format_timestamp : Z → string.
Variable format_price : Z → string.

Definition format_level (level : PriceLevel) : string :=
  "," +:+ format_price (pl_price level)
  +:+ "," +:+ pretty (pl_size level)
  +:+ "," +:+ pretty (pl_count level).

(** The loops [for (i = 0; i < MAX_DEPTH; ++i)] over the two arrays. *)
Definition format_levels (levels : list PriceLevel) : string :=
  foldl (fun acc i => acc +:+ format_level (default sentinel (levels !! i)))
    EmptyString (seq 0 MAX_DEPTH).

Definition format_mbp_record (record : MBPRecord) : string :=
  "," +:+ format_timestamp (ts_recv (mbp_timestamp record))
  +:+ "," +:+ format_timestamp (ts_event (mbp_timestamp record))
  +:+ "," +:+ pretty (mbp_rtype record)
  +:+ "," +:+ pretty (mbp_publisher_id record)
  +:+ "," +:+ pretty (mbp_instrument_id record)
  +:+ "," +:+ String (action_char (mbp_action record)) EmptyString
  +:+ "," +:+ String (side_char (mbp_side record)) EmptyString
  +:+ "," +:+ pretty (mbp_depth record)
  +:+ "," +:+ format_price (mbp_price record)
  +:+ "," +:+ pretty (mbp_size record)
  +:+ "," +:+ pretty (mbp_flags record)
  +:+ "," +:+ pretty (mbp_ts_in_delta record)
  +:+ "," +:+ pretty (mbp_sequence record)
  +:+ format_levels (mbp_bid_levels record)
  +:+ format_levels (mbp_ask_levels record)
  +:+ "," +:+ mbp_symbol record
  +:+ "," +:+ pretty (mbp_order_id record).
End Formatter.

(** ** The driver ([OrderbookProcessor]) *)

(** The header row that [process_file] writes first; [setw(2)] with fill
    ['0'] writes the level index on two digits. *)
Definition level_header (side : string) (i : nat) : string :=
  "," +:+ side +:+ "_px_0" +:+ pretty i
  +:+ "," +:+ side +:+ "_sz_0" +:+ pretty i
  +:+ "," +:+ side +:+ "_ct_0" +:+ pretty i.

Definition csv_header : string :=
  ",ts_recv,ts_event,rtype,publisher_id,instrument_id,action,side,depth,price,size,flags,ts_in_delta,sequence"
  +:+ foldl (fun acc i => acc +:+ level_header "bid" i) EmptyString (seq 0 MAX_DEPTH)
  +:+ foldl (fun acc i => acc +:+ level_header "ask" i) EmptyString (seq 0 MAX_DEPTH)
  +:+ ",symbol,order_id".

(** The members of [OrderbookProcessor] that the processing reads or
    writes. *)
Record OrderbookProcessor : Type := mkProcessor {
  orderbook_ : Orderbook;
  buffer_size_ : nat;
  processed_records_ : list string
}.

Section Processor.
Context {double : Type}.
Variable stod : string → option double.
Variable scaled_price : double → Z.
Variable mktime : Z → Z → Z → Z → Z → Z → Z.
Variable format_timestamp : Z → string.
Variable format_price : Z → string.

(** One line of [process_chunk]: a line that does not parse is skipped;
    otherwise the record is applied, the snapshot taken and its row pushed
    onto [processed_records_]. *)
Definition process_line (line : string) (p : OrderbookProcessor)
    : OrderbookProcessor :=
  match parse_mbo_line stod scaled_price mktime line with
  | None => p
  | Some mbo_record =>
      let b := process_mbo_record mbo_record (orderbook_ p) in
      let mbp_record := generate_mbp_record mbo_record b in
      mkProcessor b (buffer_size_ p)
        (processed_records_ p
           ++ [format_mbp_record format_timestamp format_price mbp_record])
  end.

Definition process_chunk (lines : list string) (p : OrderbookProcessor)
    : OrderbookProcessor :=
  foldl (fun acc line => process_line line acc) p lines.

(** The reading loop of [process_file] over the lines that [std::getline]
    yields: [lines] is the chunk collected so far, [output] the rows
    written so far.  A full chunk is processed, its rows are written and
    [processed_records_] is cleared; the rows of the last, partial chunk are
    written without clearing it. *)
Fixpoint read_loop (input lines : list string) (p : OrderbookProcessor)
    (output : list string) : OrderbookProcessor * list string :=
  match input with
  | [] =>
      match lines with
      | [] => (p, output)
      | _ :: _ =>
          let p' := process_chunk lines p in
          (p', output ++ processed_records_ p')
      end
  | line :: input' =>
      let lines' := lines ++ [line] in
      if decide (buffer_size_ p ≤ length lines')%nat then
        let p' := process_chunk lines' p in
        read_loop input' []
          (mkProcessor (orderbook_ p') (buffer_size_ p') [])
          (output ++ processed_records_ p')
      else read_loop input' lines' p output
  end.

(** [process_file] on an input file given by its lines: the header row is
    written, the first input line is skipped, the rest goes through the
    reading loop. *)
Definition process_file (input : list string) (p : OrderbookProcessor)
    : OrderbookProcessor * list string :=
  read_loop (tail input) [] p [csv_header].
End Processor.

(** ** Observations and invariants used in the statements *)

(** The aggregated size shown for a price: that of the level, or 0 when the
    side has no level at that price. *)
Definition aggregated_size (price : Z) (s : OrderbookSide) : Z :=
  from_option total_size 0 (levels_ s !! price).

(** The members' sizes of a level, summed. *)
Definition member_sum (level : OrderbookPriceLevel) : Z :=
  map_fold (fun _ sz acc => sz + acc) 0 (orders level).

(** Index coherence (every indexed order is a member of the level at its
    price with the same size, and conversely). *)
Definition index_coherence (s : OrderbookSide) : Prop :=
  (∀ order_id price sz,
      order_lookup_ s !! order_id = Some (price, sz) →
      ∃ level, levels_ s !! price = Some level ∧ orders level !! order_id = Some sz)
  ∧ (∀ price level order_id sz,
      levels_ s !! price = Some level → orders level !! order_id = Some sz →
      order_lookup_ s !! order_id = Some (price, sz)).

(** Aggregation (totals and counts of every level agree with its members
    and are at least 1). *)
Definition aggregation (s : OrderbookSide) : Prop :=
  ∀ price level,
    levels_ s !! price = Some level →
    total_size level = member_sum level ∧ 1 ≤ total_size level
    ∧ order_count level = Z.of_nat (size (orders level)) ∧ 1 ≤ order_count level.

(** What every operation re-establishes for the levels it leaves in the
    map: the stored price is the key, the total is a non-zero 32-bit value
    and the count is a 32-bit value. *)
Definition level_wf (price : Z) (level : OrderbookPriceLevel) : Prop :=
  lvl_price level = price ∧ total_size level ≠ 0
  ∧ 0 ≤ total_size level < 2 ^ 32 ∧ 0 ≤ order_count level < 2 ^ 32.

Definition side_wf (s : OrderbookSide) : Prop :=
  map_Forall level_wf (levels_ s).

(** The states of one side that calls of its public operations produce. *)
Inductive reachable_side : OrderbookSide → Prop :=
  | reachable_empty : reachable_side empty_side
  | reachable_add order_id price size s :
      reachable_side s → reachable_side (add_order order_id price size s)
  | reachable_cancel order_id price size s :
      reachable_side s → reachable_side (cancel_order order_id price size s)
  | reachable_trade order_id price size s :
      reachable_side s → reachable_side (trade_order order_id price size s).

(** The books that a stream of records produces from a new book. *)
Definition reachable (b : Orderbook) : Prop :=
  ∃ records, b = apply_records records new_orderbook.

(** An event with the given action, side, price, size and order id (the
    other fields are immaterial to the book). *)
Definition event (action : Action) (side : Side) (price size order_id : Z)
    : MBORecord :=
  mkMBORecord (mkTimestamp 0 0) MBO 0 0 action side price size 0 order_id 0 0 1
    EmptyString.

(** The side has room for a new order [order_id] of [size] at [price]: the
    id is neither indexed nor a member of the level at [price], and the
    level's 32-bit total does not wrap to 0 when [size] is added. *)
Definition fresh_order (order_id price size : Z) (s : OrderbookSide) : Prop :=
  order_lookup_ s !! order_id = None
  ∧ ∀ level, levels_ s !! price = Some level →
      orders level !! order_id = None ∧ wrap32 (total_size level + size) ≠ 0.

(** The same, for the side book that a record of side [side] addresses. *)
Definition fresh_on (side : Side) (order_id price size : Z) (b : Orderbook) : Prop :=
  match side with
  | BID => fresh_order order_id price size (bid_side_ b)
  | ASK => fresh_order order_id price size (ask_side_ b)
  | NEUTRAL => True
  end.

(** [c] is the exact cancel of the add [a]: same side, order id, price and
    size. *)
Definition exact_cancel (a c : MBORecord) : Prop :=
  mbo_action a = ADD ∧ mbo_action c = CANCEL
  ∧ mbo_side c = mbo_side a ∧ mbo_order_id c = mbo_order_id a
  ∧ mbo_price c = mbo_price a ∧ mbo_size c = mbo_size a.

(** The slot written for an entry of the level map. *)
Definition slot (entry : Z * OrderbookPriceLevel) : PriceLevel :=
  mkPriceLevel entry.1 (total_size entry.2) (order_count entry.2).

(** Field [i] of a tokenized row. *)
Definition field (fields : list string) (i : nat) : string :=
  default EmptyString (fields !! i).

(** One of the numeric columns fails to convert: [std::stoul] or
    [std::stoull] throws on columns 2-4 and 8-13, or [std::stod] throws on a
    price column that is not empty. *)
Definition numeric_failure {double : Type} (stod : string → option double)
    (fields : list string) : Prop :=
  stoul (field fields 2) = None
  ∨ stoul (field fields 3) = None
  ∨ stoul (field fields 4) = None
  ∨ (field fields 7 ≠ EmptyString ∧ stod (field fields 7) = None)
  ∨ stoul (field fields 8) = None
  ∨ stoul (field fields 9) = None
  ∨ stoull (field fields 10) = None
  ∨ stoul (field fields 11) = None
  ∨ stoul (field fields 12) = None
  ∨ stoull (field fields 13) = None.

(** The shape of a depth projection with [n] occupied slots: 10 slots, the
    first [n] with a non-zero size and strictly descending prices, the
    others sentinels. *)
Definition projection_shape (tops : list PriceLevel) (n : nat) : Prop :=
  length tops = MAX_DEPTH
  ∧ (∀ i x, (i < n)%nat → tops !! i = Some x → pl_size x ≠ 0)
  ∧ (∀ i, (n ≤ i < MAX_DEPTH)%nat → tops !! i = Some sentinel)
  ∧ (∀ i j x y, (i < j)%nat → (j < n)%nat →
       tops !! i = Some x → tops !! j = Some y → pl_price y < pl_price x).

(** The number of occupied slots of a side's projection. *)
Definition occupied_slots (s : OrderbookSide) : nat :=
  Nat.min MAX_DEPTH (size (levels_ s)).

(** Replaying records on one side book: an ADD is [add_order], a CANCEL is
    [cancel_order], any other action leaves the side alone. *)
Definition replay_on_side (records : list MBORecord) (s : OrderbookSide)
    : OrderbookSide :=
  foldl (fun acc record =>
           match mbo_action record with
           | ADD => add_order (mbo_order_id record) (mbo_price record)
                      (mbo_size record) acc
           | CANCEL => cancel_order (mbo_order_id record) (mbo_price record)
                         (mbo_size record) acc
           | _ => acc
           end) s records.

(** The record is the initial clear that [process_mbo_record] skips. *)
Definition initial_clear (record : MBORecord) : Prop :=
  mbo_action record = CLEAR ∧ mbo_sequence record = 0.

#[global] Instance initial_clear_dec record : Decision (initial_clear record).
Proof. unfold initial_clear. apply _. Defined.

(** How many records of a stream have the given action, the initial clears
    left out. *)
Definition count_action (a : Action) (records : list MBORecord) : Z :=
  Z.of_nat (length (filter (fun record => mbo_action record = a
                                          ∧ ¬ initial_clear record) records)).

Definition count_processed (records : list MBORecord) : Z :=
  Z.of_nat (length (filter (fun record => ¬ initial_clear record) records)).

(** The order ids of the TRADE records of a stream. *)
Definition trade_ids (records : list MBORecord) : gset Z :=
  list_to_set (mbo_order_id <$> filter (fun record => mbo_action record = TRADE) records).

(** The sizes of a list of records, summed. *)
Definition total_size_of (records : list MBORecord) : Z :=
  foldr (fun record acc => mbo_size record + acc) 0 records.

(** A side in order: its levels are well formed, index coherence and
    aggregation hold, and every member of a level has a size of at least
    1. *)
Definition orderly (s : OrderbookSide) : Prop :=
  side_wf s ∧ index_coherence s ∧ aggregation s
  ∧ ∀ price level order_id sz,
      levels_ s !! price = Some level → orders level !! order_id = Some sz →
      1 ≤ sz.

(** Fields written one after the other with a comma between them. *)
Fixpoint join_fields (fields : list string) : string :=
  match fields with
  | [] => EmptyString
  | [f] => f
  | f :: rest => f +:+ "," +:+ join_fields rest
  end.

(** The last character of the string is a comma. *)
Fixpoint ends_with_comma (s : string) : bool :=
  match s with
  | EmptyString => false
  | String c EmptyString => bool_decide (c = ","%char)
  | String _ rest => ends_with_comma rest
  end.

(** The number of commas of a string. *)
Fixpoint commas (s : string) : nat :=
  match s with
  | EmptyString => 0
  | String c rest => (if decide (c = ","%char) then 1 else 0) + commas rest
  end.

(** ** Basic facts about the side operations *)

Lemma wrap32_range z : 0 ≤ wrap32 z < 2 ^ 32.
Proof. unfold wrap32. apply Z.mod_pos_bound. lia. Qed.

Lemma wrap32_small z : 0 ≤ z < 2 ^ 32 → wrap32 z = z.
Proof. intros. unfold wrap32. by apply Z.mod_small. Qed.

Lemma wrap32_add_sub a b : wrap32 (wrap32 (a + b) - b) = wrap32 a.
Proof.
  unfold wrap32. rewrite Zminus_mod_idemp_l. f_equal. lia.
Qed.

Lemma order_lookup_update_level price order_id size is_add s :
  order_lookup_ (update_level price order_id size is_add s) = order_lookup_ s.
Proof.
  unfold update_level, remove_level_if_empty. simpl.
  rewrite lookup_insert_eq.
  by destruct (total_size _ =? 0).
Qed.

Lemma levels_update_order_lookup order_id price size is_add s :
  levels_ (update_order_lookup order_id price size is_add s) = levels_ s.
Proof.
  unfold update_order_lookup. destruct is_add; [done|].
  destruct (order_lookup_ s !! order_id) as [[op os]|]; [|done].
  by destruct (os <=? size).
Qed.

(** The level map after [update_level ... true]. *)
Lemma levels_update_level_add price order_id size s :
  levels_ (update_level price order_id size true s) =
    let level := default new_level (levels_ s !! price) in
    let total := wrap32 (total_size level + size) in
    if total =? 0 then delete price (levels_ s)
    else <[price := mkLevel price total (wrap32 (order_count level + 1))
                      (<[order_id := size]> (orders level))]> (levels_ s).
Proof.
  unfold update_level, remove_level_if_empty. simpl.
  rewrite lookup_insert_eq. simpl.
  destruct (wrap32 _ =? 0); simpl; [by rewrite delete_insert_eq | done].
Qed.

(** The level map after [update_level ... false] when the level at [price]
    does not hold the order: a level that exists stays (with its price
    field rewritten), a level created by the lookup is erased again. *)
Lemma levels_update_level_cancel_miss price order_id size s :
  orders (default new_level (levels_ s !! price)) !! order_id = None →
  levels_ (update_level price order_id size false s) =
    let level := default new_level (levels_ s !! price) in
    if total_size level =? 0 then delete price (levels_ s)
    else <[price := mkLevel price (total_size level) (order_count level)
                      (orders level)]> (levels_ s).
Proof.
  intros Hmiss. unfold update_level, remove_level_if_empty. simpl.
  rewrite Hmiss, lookup_insert_eq. simpl.
  destruct (total_size _ =? 0); simpl; [by rewrite delete_insert_eq | done].
Qed.

(** The level map after [update_level ... false] when the level holds the
    order with [order_size]. *)
Lemma levels_update_level_cancel_hit price order_id size order_size s :
  orders (default new_level (levels_ s !! price)) !! order_id = Some order_size →
  levels_ (update_level price order_id size false s) =
    let level := default new_level (levels_ s !! price) in
    let total := wrap32 (total_size level - Z.min order_size size) in
    if total =? 0 then delete price (levels_ s)
    else <[price := mkLevel price total (wrap32 (order_count level - 1))
                      (delete order_id (orders level))]> (levels_ s).
Proof.
  intros Hhit. unfold update_level, remove_level_if_empty. simpl.
  rewrite Hhit, lookup_insert_eq. simpl.
  destruct (wrap32 _ =? 0) eqn:E; simpl; [by rewrite delete_insert_eq | done].
Qed.

(** *** Well-formedness of the levels is preserved *)

Lemma side_wf_empty : side_wf empty_side.
Proof. apply map_Forall_empty. Qed.

Lemma side_wf_update_level price order_id size is_add s :
  side_wf s → side_wf (update_level price order_id size is_add s).
Proof.
  unfold side_wf. intros Hwf.
  assert (Hlevel : 0 ≤ total_size (default new_level (levels_ s !! price)) < 2 ^ 32
                   ∧ 0 ≤ order_count (default new_level (levels_ s !! price)) < 2 ^ 32).
  { destruct (levels_ s !! price) as [level|] eqn:E; simpl; [|lia].
    destruct (Hwf _ _ E) as (_ & _ & ? & ?). done. }
  destruct is_add.
  - rewrite levels_update_level_add. simpl.
    destruct (wrap32 _ =? 0) eqn:E.
    + by apply map_Forall_delete.
    + apply map_Forall_insert_2; [|done].
      repeat split; simpl; try apply wrap32_range. lia.
  - destruct (orders (default new_level (levels_ s !! price)) !! order_id)
      as [order_size|] eqn:Hm.
    + rewrite (levels_update_level_cancel_hit _ _ _ _ _ Hm). simpl.
      destruct (wrap32 _ =? 0) eqn:E.
      * by apply map_Forall_delete.
      * apply map_Forall_insert_2; [|done].
        repeat split; simpl; try apply wrap32_range. lia.
    + rewrite (levels_update_level_cancel_miss _ _ _ _ Hm). simpl.
      destruct (total_size _ =? 0) eqn:E.
      * by apply map_Forall_delete.
      * apply map_Forall_insert_2; [|done].
        repeat split; simpl; lia.
Qed.

Lemma side_wf_update_order_lookup order_id price size is_add s :
  side_wf s → side_wf (update_order_lookup order_id price size is_add s).
Proof. unfold side_wf. by rewrite levels_update_order_lookup. Qed.

Lemma side_wf_add_order order_id price size s :
  side_wf s → side_wf (add_order order_id price size s).
Proof.
  intros. by apply side_wf_update_order_lookup, side_wf_update_level.
Qed.

Lemma side_wf_cancel_order order_id price size s :
  side_wf s → side_wf (cancel_order order_id price size s).
Proof.
  intros. by apply side_wf_update_order_lookup, side_wf_update_level.
Qed.

Lemma side_wf_trade_order order_id price size s :
  side_wf s → side_wf (trade_order order_id price size s).
Proof.
  intros. unfold trade_order.
  destruct (order_lookup_ s !! order_id) as [[op os]|]; [|done].
  destruct (os <=? size);
    by apply side_wf_update_order_lookup, side_wf_update_level.
Qed.

Create HintDb side_wf.
#[global] Hint Resolve side_wf_empty side_wf_add_order side_wf_cancel_order
  side_wf_trade_order : side_wf.

Lemma reachable_side_wf s : reachable_side s → side_wf s.
Proof. induction 1; auto with side_wf. Qed.

(** ** The book: dispatch and snapshot *)

Lemma sides_update_stats record b :
  bid_side_ (update_stats record b) = bid_side_ b
  ∧ ask_side_ (update_stats record b) = ask_side_ b.
Proof. done. Qed.

(** A trade or fill record only touches the table of pending trades. *)
Lemma sides_handle_trade_or_fill record b :
  mbo_action record = TRADE ∨ mbo_action record = FILL →
  bid_side_ (handle_trade_sequence record b) = bid_side_ b
  ∧ ask_side_ (handle_trade_sequence record b) = ask_side_ b.
Proof.
  unfold handle_trade_sequence. intros [-> | ->]; [done|].
  by destruct (pending_trades_ b !! mbo_order_id record).
Qed.

(** The snapshots taken inside the event loop do not influence the book. *)
Lemma process_records_book records b :
  (process_records records b).1 = apply_records records b.
Proof.
  revert b. induction records as [|record rest IH]; intros b; [done|].
  simpl. specialize (IH (process_mbo_record record b)).
  destruct (process_records rest (process_mbo_record record b)) as [b'' out].
  exact IH.
Qed.

(** C9.  [generate_mbp_record] is a read-only projection: every header field
    of the record it returns is the corresponding field of the event,
    [rtype] is MBP and [depth] is 0; and the book that the apply/snapshot
    loop ends with is the one obtained by applying the events alone. *)
Theorem generate_mbp_record_mirrors_event (record : MBORecord) (b : Orderbook) :
  let r := generate_mbp_record record b in
  (mbp_timestamp r = mbo_timestamp record
   ∧ mbp_sequence r = mbo_sequence record
   ∧ mbp_publisher_id r = mbo_publisher_id record
   ∧ mbp_instrument_id r = mbo_instrument_id record
   ∧ mbp_symbol r = mbo_symbol record
   ∧ mbp_flags r = mbo_flags record
   ∧ mbp_ts_in_delta r = mbo_ts_in_delta record
   ∧ mbp_action r = mbo_action record
   ∧ mbp_side r = mbo_side record
   ∧ mbp_price r = mbo_price record
   ∧ mbp_size r = mbo_size record
   ∧ mbp_order_id r = mbo_order_id record)
  ∧ mbp_rtype r = MBP
  ∧ mbp_depth r = 0
  ∧ mbp_bid_levels r = get_top_levels (bid_side_ b)
  ∧ mbp_ask_levels r = get_top_levels (ask_side_ b)
  ∧ (∀ records, (process_records records b).1 = apply_records records b).
Proof.
  cbv zeta. split_and!; try reflexivity.
  intros records. apply process_records_book.
Qed.

(** C10.  A record whose side is NEUTRAL leaves both side books as they
    were, whatever its action (add and cancel in particular). *)
Theorem neutral_side_leaves_books (record : MBORecord) (b : Orderbook) :
  mbo_side record = NEUTRAL →
  bid_side_ (process_mbo_record record b) = bid_side_ b
  ∧ ask_side_ (process_mbo_record record b) = ask_side_ b.
Proof.
  intros Hside. unfold process_mbo_record.
  destruct (bool_decide _ && _); [done|].
  destruct (mbo_action record) eqn:Ha; simpl;
    unfold handle_add_order, handle_cancel_order; rewrite ?Hside; try done.
  - apply sides_handle_trade_or_fill. by left.
  - apply sides_handle_trade_or_fill. by right.
Qed.

Lemma neutral_side_leaves_books_witness :
  mbo_side (event ADD NEUTRAL 1000000 100 7) = NEUTRAL
  ∧ bid_side_ (process_mbo_record (event ADD NEUTRAL 1000000 100 7)
                 (process_mbo_record (event ADD BID 990000 5 1) new_orderbook))
    = bid_side_ (process_mbo_record (event ADD BID 990000 5 1) new_orderbook).
Proof.
  split; [reflexivity|].
  apply (neutral_side_leaves_books (event ADD NEUTRAL 1000000 100 7)).
  reflexivity.
Defined.

(** *** Trade sequences *)

(** The dispatch of [process_mbo_record] sends every CANCEL record to
    [handle_cancel_order]: a TRADE followed by a CANCEL on the aggressor
    side never reaches the resting side. *)
Lemma trade_then_cancel_resting_side (t c : MBORecord) (b : Orderbook) :
  mbo_action t = TRADE → mbo_action c = CANCEL →
  let b' := process_mbo_record c (process_mbo_record t b) in
  (mbo_side c = ASK → bid_side_ b' = bid_side_ b)
  ∧ (mbo_side c = BID → ask_side_ b' = ask_side_ b).
Proof.
  intros Ht Hc. unfold process_mbo_record. rewrite Ht, Hc. simpl.
  unfold handle_cancel_order, handle_trade_sequence. rewrite Ht.
  split; intros ->; done.
Qed.

(** C1 at the input "add bid 100 at 1.000000 (id 99); trade 40 with
    aggressor side ask (id 99); cancel (id 99)": the resting bid level keeps
    an aggregated size of 100 and the pending trade is still recorded. *)
Theorem trade_cancel_keeps_resting_level :
  let b0 := process_mbo_record (event ADD BID 1000000 100 99) new_orderbook in
  let b2 := process_mbo_record (event CANCEL ASK 1000000 40 99)
              (process_mbo_record (event TRADE ASK 1000000 40 99) b0) in
  aggregated_size 1000000 (bid_side_ b0) = 100
  ∧ aggregated_size 1000000 (bid_side_ b2) = 100
  ∧ get_top_levels (bid_side_ b2) !! 0%nat = Some (mkPriceLevel 1000000 100 1)
  ∧ bool_decide (is_Some (pending_trades_ b2 !! 99)) = true.
Proof. vm_compute. repeat split. Qed.

(** ** Cancels *)

Lemma side_eq (s1 s2 : OrderbookSide) :
  levels_ s1 = levels_ s2 → order_lookup_ s1 = order_lookup_ s2 → s1 = s2.
Proof. destruct s1, s2; simpl; by intros -> ->. Qed.

Lemma level_eta level price :
  lvl_price level = price →
  mkLevel price (total_size level) (order_count level) (orders level) = level.
Proof. destruct level; simpl; by intros ->. Qed.

(** The index after [update_order_lookup ... false]. *)
Lemma order_lookup_cancel order_id price size s :
  order_lookup_ (update_order_lookup order_id price size false s) =
    match order_lookup_ s !! order_id with
    | Some (order_price, order_size) =>
        if order_size <=? size then delete order_id (order_lookup_ s)
        else <[order_id := (order_price, wrap32 (order_size - size))]>
               (order_lookup_ s)
    | None => order_lookup_ s
    end.
Proof.
  unfold update_order_lookup.
  destruct (order_lookup_ s !! order_id) as [[op os]|]; [|done].
  by destruct (os <=? size).
Qed.

(** C3 at the input "add bid 100 at 1.000000 (id 1); cancel 40 of it": the
    add leaves a coherent side, the partial cancel erases the membership in
    the level while the index keeps the order with size 60, and the level
    stays with an order count of 0. *)
Theorem partial_cancel_breaks_invariants :
  let s1 := bid_side_ (apply_records [event ADD BID 1000000 100 1] new_orderbook) in
  let s2 := bid_side_ (apply_records [event ADD BID 1000000 100 1;
                                      event CANCEL BID 1000000 40 1]
                         new_orderbook) in
  (index_coherence s1 ∧ aggregation s1)
  ∧ order_lookup_ s2 !! 1 = Some (1000000, 60)
  ∧ levels_ s2 !! 1000000 = Some (mkLevel 1000000 60 0 ∅)
  ∧ ¬ index_coherence s2
  ∧ ¬ aggregation s2.
Proof.
  cbv zeta.
  assert (H1 : bid_side_ (apply_records [event ADD BID 1000000 100 1] new_orderbook)
               = mkSide {[1000000 := mkLevel 1000000 100 1 {[1 := 100]}]}
                        {[1 := (1000000, 100)]}) by (vm_compute; reflexivity).
  assert (H2 : bid_side_ (apply_records [event ADD BID 1000000 100 1;
                                         event CANCEL BID 1000000 40 1]
                            new_orderbook)
               = mkSide {[1000000 := mkLevel 1000000 60 0 ∅]}
                        {[1 := (1000000, 60)]}) by (vm_compute; reflexivity).
  rewrite H1, H2. unfold index_coherence, aggregation. simpl. split_and!.
  - intros id p sz [<- [= <- <-]]%lookup_singleton_Some.
    eexists. split; [apply lookup_singleton_eq|]. apply lookup_singleton_eq.
  - intros p level id sz [<- <-]%lookup_singleton_Some. simpl.
    intros [<- <-]%lookup_singleton_Some. apply lookup_singleton_eq.
  - intros p level [<- <-]%lookup_singleton_Some. simpl.
    unfold member_sum. simpl. rewrite map_fold_singleton, map_size_singleton. lia.
  - apply lookup_singleton_eq.
  - apply lookup_singleton_eq.
  - intros [Hidx _].
    destruct (Hidx 1 1000000 60) as (level & Hl & Hm); [apply lookup_singleton_eq|].
    apply lookup_singleton_Some in Hl as [_ <-]. simpl in Hm.
    by rewrite lookup_empty in Hm.
  - intros Hagg.
    destruct (Hagg 1000000 (mkLevel 1000000 60 0 ∅)) as (_ & _ & _ & Hc);
      [apply lookup_singleton_eq|].
    simpl in Hc. lia.
Qed.

(** C4, as stated, fails on a cancel with size 0: the order stays in the
    index with its full size and the level keeps its aggregated size. *)
Lemma cancel_size_zero_keeps_order :
  has_order 1 (cancel_order 1 1000000 0 (add_order 1 1000000 100 empty_side)) = true
  ∧ get_order_size 1 (cancel_order 1 1000000 0 (add_order 1 1000000 100 empty_side)) = 100
  ∧ aggregated_size 1000000
      (cancel_order 1 1000000 0 (add_order 1 1000000 100 empty_side)) = 100.
Proof. vm_compute. repeat split. Qed.

(** C4, amended.  For an order indexed at [price] with resting size [r] that
    the level at [price] holds with the same size, a cancel at that price
    with [size_hint] takes [d = min size_hint r] off the order's remaining
    size and off the level's aggregated size.  With [r ≤ size_hint] the
    order leaves the index and the level; with [size_hint = 0 < r] the index
    entry and the aggregated size stay as they are. *)
Theorem cancel_order_decrements (order_id price size_hint r : Z)
    (level : OrderbookPriceLevel) (s : OrderbookSide) :
  order_lookup_ s !! order_id = Some (price, r) →
  levels_ s !! price = Some level →
  orders level !! order_id = Some r →
  0 ≤ size_hint →
  0 ≤ r ≤ total_size level →
  total_size level < 2 ^ 32 →
  let d := Z.min size_hint r in
  let s' := cancel_order order_id price size_hint s in
  get_order_size order_id s' = r - d
  ∧ aggregated_size price s' = total_size level - d
  ∧ (r ≤ size_hint →
     has_order order_id s' = false
     ∧ ∀ level', levels_ s' !! price = Some level' → orders level' !! order_id = None)
  ∧ (size_hint = 0 → 0 < r →
     order_lookup_ s' !! order_id = Some (price, r)
     ∧ aggregated_size price s' = total_size level).
Proof.
  intros Hidx Hlvl Hmem Hh Hr Ht. cbv zeta.
  assert (Hhit : orders (default new_level (levels_ s !! price)) !! order_id = Some r)
    by (by rewrite Hlvl).
  assert (Hlevels : levels_ (cancel_order order_id price size_hint s) =
            if total_size level - Z.min size_hint r =? 0 then delete price (levels_ s)
            else <[price := mkLevel price (total_size level - Z.min size_hint r)
                              (wrap32 (order_count level - 1))
                              (delete order_id (orders level))]> (levels_ s)).
  { unfold cancel_order. rewrite levels_update_order_lookup.
    rewrite (levels_update_level_cancel_hit _ _ _ _ _ Hhit). rewrite Hlvl. simpl.
    rewrite (Z.min_comm r size_hint).
    rewrite (wrap32_small (total_size level - Z.min size_hint r)) by lia. done. }
  assert (Hindex : order_lookup_ (cancel_order order_id price size_hint s) =
            if r <=? size_hint then delete order_id (order_lookup_ s)
            else <[order_id := (price, r - size_hint)]> (order_lookup_ s)).
  { unfold cancel_order. rewrite order_lookup_cancel, order_lookup_update_level, Hidx.
    destruct (r <=? size_hint) eqn:E; [done|].
    apply Z.leb_gt in E. rewrite wrap32_small by lia. done. }
  assert (Hagg : aggregated_size price (cancel_order order_id price size_hint s)
                 = total_size level - Z.min size_hint r).
  { unfold aggregated_size. rewrite Hlevels.
    destruct (total_size level - Z.min size_hint r =? 0) eqn:E.
    - rewrite lookup_delete_eq. simpl. by apply Z.eqb_eq in E.
    - by rewrite lookup_insert_eq. }
  split_and!.
  - unfold get_order_size. rewrite Hindex.
    destruct (r <=? size_hint) eqn:E.
    + apply Z.leb_le in E. rewrite lookup_delete_eq. lia.
    + apply Z.leb_gt in E. rewrite lookup_insert_eq. lia.
  - exact Hagg.
  - intros Hfull. split.
    + unfold has_order. rewrite Hindex.
      apply Z.leb_le in Hfull. rewrite Hfull, lookup_delete_eq.
      apply bool_decide_eq_false. by intros [? ?].
    + intros level'. rewrite Hlevels.
      destruct (total_size level - Z.min size_hint r =? 0).
      * by rewrite lookup_delete_eq.
      * rewrite lookup_insert_eq. intros [= <-]. simpl. apply lookup_delete_eq.
  - intros -> Hpos. split.
    + rewrite Hindex.
      destruct (r <=? 0) eqn:E; [apply Z.leb_le in E; lia|].
      rewrite lookup_insert_eq. do 2 f_equal. lia.
    + rewrite Hagg. lia.
Qed.

Lemma cancel_order_decrements_witness :
  let s := add_order 2 1000000 50 (add_order 1 1000000 100 empty_side) in
  let s' := cancel_order 1 1000000 40 s in
  get_order_size 1 s' = 100 - Z.min 40 100
  ∧ aggregated_size 1000000 s' = 150 - Z.min 40 100.
Proof.
  cbv zeta.
  pose proof (cancel_order_decrements 1 1000000 40 100
                (mkLevel 1000000 150 2 (<[2 := 50]> {[1 := 100]}))
                (add_order 2 1000000 50 (add_order 1 1000000 100 empty_side))) as H.
  cbv zeta in H.
  destruct H as (H1 & H2 & _).
  - vm_compute. reflexivity.
  - vm_compute. reflexivity.
  - vm_compute. reflexivity.
  - lia.
  - simpl. lia.
  - simpl. lia.
  - split; [exact H1 | exact H2].
Defined.

(** ** Adds *)

(** C5, as stated, fails: a second add of order 1 leaves a level of size 150
    with two orders counted, while removing the tracked order first and
    inserting the new one gives size 50 and one order. *)
Lemma duplicate_add_counts_twice :
  let s0 := add_order 1 1000000 100 empty_side in
  let duplicate := add_order 1 1000000 50 s0 in
  let replaced := add_order 1 1000000 50 (cancel_order 1 1000000 100 s0) in
  levels_ duplicate !! 1000000 = Some (mkLevel 1000000 150 2 {[1 := 50]})
  ∧ levels_ replaced !! 1000000 = Some (mkLevel 1000000 50 1 {[1 := 50]})
  ∧ order_lookup_ duplicate !! 1 = Some (1000000, 50)
  ∧ order_lookup_ replaced !! 1 = Some (1000000, 50).
Proof. vm_compute. repeat split. Qed.

(** What an add does to the index and to the level map, for any order id. *)
Lemma add_order_effect (order_id price size : Z) (s : OrderbookSide) :
  let level := default new_level (levels_ s !! price) in
  let total := wrap32 (total_size level + size) in
  let s' := add_order order_id price size s in
  order_lookup_ s' = <[order_id := (price, size)]> (order_lookup_ s)
  ∧ (∀ p, p ≠ price → levels_ s' !! p = levels_ s !! p)
  ∧ levels_ s' !! price =
      (if total =? 0 then None
       else Some (mkLevel price total (wrap32 (order_count level + 1))
                    (<[order_id := size]> (orders level)))).
Proof.
  cbv zeta. unfold add_order. split_and!.
  - unfold update_order_lookup. simpl. by rewrite order_lookup_update_level.
  - intros p Hp. rewrite levels_update_order_lookup, levels_update_level_add.
    simpl. destruct (wrap32 _ =? 0).
    + by rewrite lookup_delete_ne.
    + by rewrite lookup_insert_ne.
  - rewrite levels_update_order_lookup, levels_update_level_add.
    simpl. destruct (wrap32 _ =? 0).
    + by rewrite lookup_delete_eq.
    + by rewrite lookup_insert_eq.
Qed.

(** C5, amended.  An add whose order id is already indexed (at [old_price]
    with [old_size]) overwrites the index entry and the order's entry among
    the members of the level at its price, and adds on top of that level's
    totals: the aggregated size grows by [size] and the order count by 1 (as
    32-bit values; a total that wraps to 0 erases the level).  The order
    tracked before is not removed: the levels at other prices, among them the
    one at [old_price], are not touched. *)
Theorem add_order_accumulates (order_id price size old_price old_size : Z)
    (s : OrderbookSide) :
  order_lookup_ s !! order_id = Some (old_price, old_size) →
  let level := default new_level (levels_ s !! price) in
  let total := wrap32 (total_size level + size) in
  let s' := add_order order_id price size s in
  order_lookup_ s' !! order_id = Some (price, size)
  ∧ (∀ other, other ≠ order_id → order_lookup_ s' !! other = order_lookup_ s !! other)
  ∧ levels_ s' !! price =
      (if total =? 0 then None
       else Some (mkLevel price total (wrap32 (order_count level + 1))
                    (<[order_id := size]> (orders level))))
  ∧ (∀ p, p ≠ price → levels_ s' !! p = levels_ s !! p)
  ∧ (old_price ≠ price → levels_ s' !! old_price = levels_ s !! old_price).
Proof.
  intros _. cbv zeta.
  destruct (add_order_effect order_id price size s) as (Hix & Hother & Hat).
  split_and!.
  - rewrite Hix. apply lookup_insert_eq.
  - intros other Hne. rewrite Hix. by apply lookup_insert_ne.
  - exact Hat.
  - exact Hother.
  - intros Hne. by apply Hother.
Qed.

Lemma add_order_accumulates_witness :
  let s := add_order 1 1000000 100 empty_side in
  let s' := add_order 1 1000000 50 s in
  order_lookup_ s' !! 1 = Some (1000000, 50)
  ∧ levels_ s' !! 1000000 =
      Some (mkLevel 1000000 150 2 (<[1 := 50]> {[1 := 100]})).
Proof.
  cbv zeta.
  destruct (add_order_accumulates 1 1000000 50 1000000 100
              (add_order 1 1000000 100 empty_side)) as (H1 & _ & H3 & _).
  - vm_compute. reflexivity.
  - split; [exact H1|]. rewrite H3. vm_compute. reflexivity.
Defined.

(** ** Cancels of orders that the index does not hold *)

(** C6, as stated, fails in a state that the operations reach: after
    "add 1 at 100; cancel 1 at 200" order 1 is out of the index but still a
    member of the level at 100, and a further cancel of 1 at 100 erases that
    level. *)
Lemma cancel_unindexed_member_changes_level :
  let s := cancel_order 1 200 10 (add_order 1 100 10 empty_side) in
  has_order 1 s = false
  ∧ levels_ s !! 100 = Some (mkLevel 100 10 1 {[1 := 10]})
  ∧ levels_ (cancel_order 1 100 10 s) !! 100 = None.
Proof. vm_compute. repeat split. Qed.

(** C6, amended.  In a state that the operations reach, a cancel whose
    order id is neither in the index nor among the members of the level at
    the cancel's price changes nothing: the level map and the index are
    what they were, whether or not a level exists at that price. *)
Theorem cancel_unknown_order_noop (order_id price size : Z) (s : OrderbookSide) :
  reachable_side s →
  order_lookup_ s !! order_id = None →
  (∀ level, levels_ s !! price = Some level → orders level !! order_id = None) →
  cancel_order order_id price size s = s.
Proof.
  intros Hreach Hidx Hmem. apply reachable_side_wf in Hreach.
  assert (Hmiss : orders (default new_level (levels_ s !! price)) !! order_id = None).
  { destruct (levels_ s !! price) as [level|] eqn:E; simpl; [by apply Hmem|done]. }
  unfold cancel_order. apply side_eq.
  - rewrite levels_update_order_lookup.
    rewrite (levels_update_level_cancel_miss _ _ _ _ Hmiss). simpl.
    destruct (levels_ s !! price) as [level|] eqn:E; simpl.
    + destruct (Hreach _ _ E) as (Hp & Hnz & _).
      apply Z.eqb_neq in Hnz. rewrite Hnz.
      rewrite level_eta by done. by apply insert_id.
    + by apply delete_id.
  - by rewrite order_lookup_cancel, order_lookup_update_level, Hidx.
Qed.

Lemma cancel_unknown_order_noop_witness :
  cancel_order 9 1000000 5 (add_order 1 1000000 100 empty_side)
  = add_order 1 1000000 100 empty_side
  ∧ cancel_order 9 990000 5 (add_order 1 1000000 100 empty_side)
    = add_order 1 1000000 100 empty_side.
Proof.
  split.
  - apply (cancel_unknown_order_noop 9 1000000 5).
    + apply reachable_add, reachable_empty.
    + vm_compute. reflexivity.
    + intros level. vm_compute. intros [= <-]. reflexivity.
  - apply (cancel_unknown_order_noop 9 990000 5).
    + apply reachable_add, reachable_empty.
    + vm_compute. reflexivity.
    + intros level. vm_compute. discriminate.
Defined.

(** ** An add followed by its exact cancel *)

Lemma process_mbo_record_reachable_sides record b :
  reachable_side (bid_side_ b) ∧ reachable_side (ask_side_ b) →
  reachable_side (bid_side_ (process_mbo_record record b))
  ∧ reachable_side (ask_side_ (process_mbo_record record b)).
Proof.
  intros [Hb Ha]. unfold process_mbo_record.
  destruct (bool_decide _ && _); [done|].
  destruct (mbo_action record) eqn:E; simpl.
  - unfold handle_add_order. destruct (mbo_side record); simpl;
      auto using reachable_add.
  - unfold handle_cancel_order. destruct (mbo_side record); simpl;
      auto using reachable_cancel.
  - destruct (sides_handle_trade_or_fill record b) as [-> ->]; auto.
  - destruct (sides_handle_trade_or_fill record b) as [-> ->]; auto.
  - done.
Qed.

Lemma reachable_sides b :
  reachable b → reachable_side (bid_side_ b) ∧ reachable_side (ask_side_ b).
Proof.
  intros [records ->]. unfold apply_records.
  induction records as [|record rest IH] using rev_ind.
  - simpl. split; apply reachable_empty.
  - rewrite foldl_snoc. by apply process_mbo_record_reachable_sides.
Qed.

Lemma cancel_add_order order_id price size s :
  side_wf s → fresh_order order_id price size s →
  cancel_order order_id price size (add_order order_id price size s) = s.
Proof.
  intros Hwf [Hidx Hlvl].
  pose proof (add_order_effect order_id price size s) as Hadd.
  cbv zeta in Hadd. destruct Hadd as (Hix & Hother & Hat).
  set (s1 := add_order order_id price size s) in *. clearbody s1.
  apply side_eq.
  - unfold cancel_order. rewrite levels_update_order_lookup.
    destruct (levels_ s !! price) as [level|] eqn:E; simpl in Hat.
    + destruct (Hlvl level eq_refl) as [Hmem Hnz].
      destruct (Hwf _ _ E) as (Hp & Htnz & Htr & Hcr).
      apply Z.eqb_neq in Hnz. rewrite Hnz in Hat.
      erewrite levels_update_level_cancel_hit; last first.
      { rewrite Hat. simpl. apply lookup_insert_eq. }
      rewrite Hat. simpl. rewrite Z.min_id, wrap32_add_sub.
      rewrite (wrap32_small (total_size level)) by done.
      apply Z.eqb_neq in Htnz. rewrite Htnz.
      rewrite wrap32_add_sub, (wrap32_small (order_count level)) by done.
      rewrite delete_insert_id by done.
      apply map_eq. intros p. destruct (decide (p = price)) as [->|Hne].
      * rewrite lookup_insert_eq, E. f_equal. by rewrite <- Hp at 1; destruct level.
      * rewrite lookup_insert_ne by done. by apply Hother.
    + destruct (wrap32 (0 + size) =? 0) eqn:Ez.
      * erewrite levels_update_level_cancel_miss; last by rewrite Hat.
        rewrite Hat. simpl.
        apply map_eq. intros p. destruct (decide (p = price)) as [->|Hne].
        -- by rewrite lookup_delete_eq, E.
        -- rewrite lookup_delete_ne by done. by apply Hother.
      * erewrite levels_update_level_cancel_hit; last first.
        { rewrite Hat. simpl. apply lookup_insert_eq. }
        rewrite Hat. simpl. rewrite Z.min_id, wrap32_add_sub.
        change (wrap32 0 =? 0) with true. simpl.
        apply map_eq. intros p. destruct (decide (p = price)) as [->|Hne].
        -- by rewrite lookup_delete_eq, E.
        -- rewrite lookup_delete_ne by done. by apply Hother.
  - unfold cancel_order. rewrite order_lookup_cancel, order_lookup_update_level.
    rewrite Hix, lookup_insert_eq, Z.leb_refl.
    by rewrite delete_insert_id.
Qed.

Lemma add_cancel_pair_sides a c b :
  exact_cancel a c →
  reachable_side (bid_side_ b) → reachable_side (ask_side_ b) →
  fresh_on (mbo_side a) (mbo_order_id a) (mbo_price a) (mbo_size a) b →
  let b' := process_mbo_record c (process_mbo_record a b) in
  bid_side_ b' = bid_side_ b ∧ ask_side_ b' = ask_side_ b
  ∧ pending_trades_ b' = pending_trades_ b.
Proof.
  intros (Ha & Hc & Hs & Hid & Hp & Hsz) Hb Hk Hfresh. cbv zeta.
  unfold process_mbo_record. rewrite Ha, Hc. simpl.
  unfold handle_cancel_order, handle_add_order. rewrite Hs, Hid, Hp, Hsz.
  unfold fresh_on in Hfresh.
  destruct (mbo_side a); simpl; split_and!; try done.
  - apply cancel_add_order; [by apply reachable_side_wf | done].
  - apply cancel_add_order; [by apply reachable_side_wf | done].
Qed.

Lemma get_top_levels_empty :
  get_top_levels empty_side = replicate MAX_DEPTH sentinel.
Proof. vm_compute. reflexivity. Qed.

Lemma fresh_on_new_orderbook side order_id price size :
  fresh_on side order_id price size new_orderbook.
Proof.
  destruct side; simpl; try done; split; try done;
    intros level; by rewrite lookup_empty.
Qed.

(** C7, as stated, fails twice.  (1) Order 2 is not indexed, but adding
    its size 1 to a level of size 2^32 - 1 wraps the total to 0, which
    erases the level: after the add/cancel pair the snapshot has lost the
    level.  (2) After "add 1 at 100; cancel 1 at 200" order 1 is not
    indexed but is still a member of the level at 100; the pair "add 1 at
    100, cancel 1 at 100" then removes that membership. *)
Lemma add_cancel_pair_not_restored :
  let b0 := process_mbo_record (event ADD BID 1000000 4294967295 1) new_orderbook in
  let b2 := process_mbo_record (event CANCEL BID 1000000 1 2)
              (process_mbo_record (event ADD BID 1000000 1 2) b0) in
  let s := cancel_order 1 200 10 (add_order 1 100 10 empty_side) in
  (has_order 2 (bid_side_ b0) = false
   ∧ get_top_levels (bid_side_ b0) !! 0%nat = Some (mkPriceLevel 1000000 4294967295 1)
   ∧ get_top_levels (bid_side_ b2) !! 0%nat = Some sentinel)
  ∧ (has_order 1 s = false
     ∧ levels_ s !! 100 = Some (mkLevel 100 10 1 {[1 := 10]})
     ∧ levels_ (cancel_order 1 100 5 (add_order 1 100 5 s)) !! 100
       = Some (mkLevel 100 10 1 ∅)).
Proof. vm_compute. repeat split. Qed.

(** C7, amended.  In a book that a stream of records produces, when the
    add's order id is neither indexed nor a member of the level at its
    price on its side, and its size does not wrap that level's 32-bit total
    to 0, the add followed by its exact cancel restores both side books and
    the pending trades, so any snapshot taken after the pair equals the one
    taken before the add (the statistics counters do advance).  On a new
    book these conditions always hold, and after the pair both sides'
    top-10 projections consist of sentinel slots only. *)
Theorem add_then_cancel_restores :
  (∀ (a c record : MBORecord) (b : Orderbook),
      exact_cancel a c →
      reachable b →
      fresh_on (mbo_side a) (mbo_order_id a) (mbo_price a) (mbo_size a) b →
      let b' := process_mbo_record c (process_mbo_record a b) in
      bid_side_ b' = bid_side_ b ∧ ask_side_ b' = ask_side_ b
      ∧ pending_trades_ b' = pending_trades_ b
      ∧ generate_mbp_record record b' = generate_mbp_record record b)
  ∧ (∀ (a c : MBORecord),
      exact_cancel a c →
      let b' := process_mbo_record c (process_mbo_record a new_orderbook) in
      get_top_levels (bid_side_ b') = replicate MAX_DEPTH sentinel
      ∧ get_top_levels (ask_side_ b') = replicate MAX_DEPTH sentinel).
Proof.
  split.
  - intros a c record b Hpair Hreach Hfresh. cbv zeta.
    destruct (reachable_sides b Hreach) as [Hb Hk].
    destruct (add_cancel_pair_sides a c b Hpair Hb Hk Hfresh) as (H1 & H2 & H3).
    split_and!; try done.
    unfold generate_mbp_record. by rewrite H1, H2.
  - intros a c Hpair. cbv zeta.
    destruct (add_cancel_pair_sides a c new_orderbook Hpair)
      as (H1 & H2 & _);
      [apply reachable_empty | apply reachable_empty
      | apply fresh_on_new_orderbook |].
    rewrite H1, H2. simpl. by rewrite get_top_levels_empty.
Qed.

Lemma add_then_cancel_restores_witness :
  let b := process_mbo_record (event ADD BID 1000000 100 1) new_orderbook in
  let b' := process_mbo_record (event CANCEL BID 1000000 50 2)
              (process_mbo_record (event ADD BID 1000000 50 2) b) in
  bid_side_ b' = bid_side_ b
  ∧ generate_mbp_record (event CANCEL BID 1000000 50 2) b'
    = generate_mbp_record (event CANCEL BID 1000000 50 2) b.
Proof.
  cbv zeta.
  destruct (proj1 add_then_cancel_restores
              (event ADD BID 1000000 50 2) (event CANCEL BID 1000000 50 2)
              (event CANCEL BID 1000000 50 2)
              (process_mbo_record (event ADD BID 1000000 100 1) new_orderbook))
    as (H1 & _ & _ & H4).
  - repeat split.
  - exists [event ADD BID 1000000 100 1]. reflexivity.
  - split; [vm_compute; reflexivity|].
    intros level.
    replace (bid_side_ (process_mbo_record (event ADD BID 1000000 100 1) new_orderbook))
      with (mkSide {[1000000 := mkLevel 1000000 100 1 {[1 := 100]}]}
                   {[1 := (1000000, 100)]}) by (vm_compute; reflexivity).
    simpl. intros [_ <-]%lookup_singleton_Some.
    split; [reflexivity | vm_compute; discriminate].
  - split; [exact H1 | exact H4].
Defined.

(** ** The depth projection *)

#[global] Instance price_before_transitive : Transitive price_before.
Proof. unfold price_before. intros x y z ? ?. lia. Qed.

#[global] Instance price_before_total : Total price_before.
Proof. unfold price_before. intros x y. lia. Qed.

Lemma length_fill_levels entries : ∀ index result,
  length (fill_levels entries index result) = length result.
Proof.
  induction entries as [|[price level] rest IH]; intros index result; simpl;
    [done|].
  destruct (decide (MAX_DEPTH ≤ index)%nat); [done|].
  by rewrite IH, length_insert.
Qed.

(** Slot [i] after the loop: the [i - index]-th entry when the loop wrote
    it, what was there before otherwise. *)
Lemma fill_levels_lookup entries : ∀ index result i,
  length result = MAX_DEPTH →
  fill_levels entries index result !! i =
    if decide ((index ≤ i < MAX_DEPTH)%nat ∧ (i < index + length entries)%nat)
    then slot <$> entries !! (i - index)%nat
    else result !! i.
Proof.
  induction entries as [|[price level] rest IH]; intros index result i Hlen;
    simpl.
  - case_decide; [lia|done].
  - destruct (decide (MAX_DEPTH ≤ index)%nat).
    + case_decide; [lia|done].
    + rewrite IH by (by rewrite length_insert).
      destruct (decide (i = index)) as [->|Hne].
      * rewrite decide_False by lia. rewrite decide_True by lia.
        rewrite Nat.sub_diag. simpl.
        apply list_lookup_insert_eq. lia.
      * rewrite list_lookup_insert_ne by done.
        case_decide; case_decide; try lia; [|done].
        replace (i - index)%nat with (S (i - S index)) by lia. done.
Qed.

Lemma length_levels_in_order m : length (levels_in_order m) = size m.
Proof.
  unfold levels_in_order.
  by rewrite (Permutation_length (merge_sort_Permutation _ _)), length_map_to_list.
Qed.

Lemma get_top_levels_lookup s i :
  get_top_levels s !! i =
    if decide ((i < MAX_DEPTH)%nat ∧ (i < size (levels_ s))%nat)
    then slot <$> levels_in_order (levels_ s) !! i
    else replicate MAX_DEPTH sentinel !! i.
Proof.
  unfold get_top_levels. rewrite fill_levels_lookup by apply length_replicate.
  rewrite length_levels_in_order, Nat.sub_0_r.
  case_decide; case_decide; try lia; done.
Qed.

Lemma StronglySorted_lookup {A} (R : relation A) l i j x y :
  StronglySorted R l → (i < j)%nat →
  l !! i = Some x → l !! j = Some y → R x y.
Proof.
  intros Hs. revert i j. induction Hs as [|a l Hs IH Hall]; intros i j Hij Hi Hj.
  - by rewrite lookup_nil in Hi.
  - destruct j as [|j]; [lia|]. simpl in Hj. destruct i as [|i]; simpl in Hi.
    + injection Hi as <-. rewrite Forall_forall in Hall.
      apply Hall. by eapply list_elem_of_lookup_2.
    + apply (IH i j); [lia|done..].
Qed.

(** The traversal visits every level once, from the greatest price down. *)
Lemma levels_in_order_descending m i j x y :
  (i < j)%nat →
  levels_in_order m !! i = Some x → levels_in_order m !! j = Some y →
  y.1 < x.1.
Proof.
  intros Hij Hi Hj.
  assert (Hle : price_before x y).
  { eapply (StronglySorted_lookup price_before); [|done..].
    unfold levels_in_order. apply StronglySorted_merge_sort; apply _. }
  assert (Hnd : NoDup (levels_in_order m).*1).
  { unfold levels_in_order. rewrite merge_sort_Permutation.
    apply NoDup_fst_map_to_list. }
  assert (x.1 ≠ y.1); [|unfold price_before in Hle; lia].
  intros Heq.
  assert (i = j); [|lia].
  eapply (NoDup_lookup _ i j (x.1) Hnd); rewrite list_lookup_fmap.
  - by rewrite Hi.
  - by rewrite Hj, Heq.
Qed.

Lemma levels_in_order_lookup m i x :
  levels_in_order m !! i = Some x → m !! x.1 = Some x.2.
Proof.
  intros Hi. apply list_elem_of_lookup_2 in Hi.
  unfold levels_in_order in Hi. rewrite merge_sort_Permutation in Hi.
  destruct x. by apply elem_of_map_to_list.
Qed.

(** The shape of the projection of either side: 10 slots; the first
    [n = min 10 (number of levels)] hold levels, none of them with size 0,
    in strictly descending price order; the others are sentinels. *)
Lemma top_levels_shape s :
  side_wf s →
  let n := Nat.min MAX_DEPTH (size (levels_ s)) in
  length (get_top_levels s) = MAX_DEPTH
  ∧ (∀ i x, (i < n)%nat → get_top_levels s !! i = Some x → pl_size x ≠ 0)
  ∧ (∀ i, (n ≤ i < MAX_DEPTH)%nat → get_top_levels s !! i = Some sentinel)
  ∧ (∀ i j x y, (i < j)%nat → (j < n)%nat →
       get_top_levels s !! i = Some x → get_top_levels s !! j = Some y →
       pl_price y < pl_price x).
Proof.
  intros Hwf. cbv zeta. split_and!.
  - unfold get_top_levels. by rewrite length_fill_levels, length_replicate.
  - intros i x Hi. rewrite get_top_levels_lookup, decide_True by lia.
    destruct (levels_in_order (levels_ s) !! i) as [e|] eqn:E; [|done].
    intros [= <-]. simpl.
    apply levels_in_order_lookup in E. by destruct (Hwf _ _ E) as (_ & ? & _).
  - intros i Hi. rewrite get_top_levels_lookup, decide_False by lia.
    apply lookup_replicate_2. lia.
  - intros i j x y Hij Hj.
    rewrite !get_top_levels_lookup, !decide_True by lia.
    destruct (levels_in_order (levels_ s) !! i) as [ei|] eqn:Ei; [|done].
    destruct (levels_in_order (levels_ s) !! j) as [ej|] eqn:Ej; [|done].
    intros [= <-] [= <-]. simpl.
    exact (levels_in_order_descending _ i j ei ej Hij Ei Ej).
Qed.

(** In every book that a stream of records produces, the ask projection is
    in strictly descending price order, like the bid projection. *)
Lemma ask_levels_descending b i j x y :
  reachable b → (i < j)%nat →
  (j < Nat.min MAX_DEPTH (size (levels_ (ask_side_ b))))%nat →
  get_top_levels (ask_side_ b) !! i = Some x →
  get_top_levels (ask_side_ b) !! j = Some y →
  pl_price y < pl_price x.
Proof.
  intros [_ Hk]%reachable_sides.
  apply reachable_side_wf, top_levels_shape in Hk. cbv zeta in Hk.
  destruct Hk as (_ & _ & _ & Hdesc). apply Hdesc.
Qed.

(** C2 at the input "add bid 100 at 1.000000, add bid 200 at 0.990000, add
    ask 150 at 1.010000, add ask 250 at 1.020000": the bid projection runs
    from the highest price down, and so does the ask projection, whose best
    (lowest) price 1.010000 comes second. *)
Theorem ask_projection_best_price_second :
  let b := apply_records
             [event ADD BID 1000000 100 1; event ADD BID 990000 200 2;
              event ADD ASK 1010000 150 3; event ADD ASK 1020000 250 4]
             new_orderbook in
  get_top_levels (bid_side_ b) =
    [mkPriceLevel 1000000 100 1; mkPriceLevel 990000 200 1]
      ++ replicate 8 sentinel
  ∧ get_top_levels (ask_side_ b) =
    [mkPriceLevel 1020000 250 1; mkPriceLevel 1010000 150 1]
      ++ replicate 8 sentinel.
Proof. vm_compute. split; reflexivity. Qed.

(** ** The CSV reader: which rows are dropped *)

Lemma parse_action_fallback c :
  c ∉ ["A"; "C"; "T"; "F"; "R"]%char → parse_action c = ADD.
Proof.
  intros Hc. unfold parse_action.
  repeat (case_decide; [subst; exfalso; apply Hc; set_solver|]). done.
Qed.

Lemma parse_side_fallback c :
  c ∉ ["B"; "A"; "N"]%char → parse_side c = NEUTRAL.
Proof.
  intros Hc. unfold parse_side.
  repeat (case_decide; [subst; exfalso; apply Hc; set_solver|]). done.
Qed.

Lemma parse_mbo_line_none_iff {double : Type} (stod : string → option double)
    (scaled_price : double → Z) (mktime : Z → Z → Z → Z → Z → Z → Z)
    (line : string) :
  parse_mbo_line stod scaled_price mktime line = None ↔
    line = EmptyString
    ∨ length (split_fields line) ≠ 15%nat
    ∨ numeric_failure stod (split_fields line).
Proof.
  unfold parse_mbo_line. case_decide as Hline; [intuition congruence|].
  destruct (split_fields line)
    as [|f0 [|f1 [|f2 [|f3 [|f4 [|f5 [|f6 [|f7 [|f8 [|f9 [|f10 [|f11 [|f12
        [|f13 [|f14 [|f15 rest]]]]]]]]]]]]]]]];
    try (split; [intros _; right; left; simpl; lia | done]).
  unfold numeric_failure, field, parse_price. simpl.
  destruct (stoul f2) eqn:E2; simpl; [|intuition congruence].
  destruct (stoul f3) eqn:E3; simpl; [|intuition congruence].
  destruct (stoul f4) eqn:E4; simpl; [|intuition congruence].
  assert (Hprice : ∀ A (k : Z → option A) (P : Prop),
            (∀ price, k price = None ↔ P) →
            ((if decide (f7 = EmptyString) then Some 0
              else scaled_price <$> stod f7) ≫= k) = None
            ↔ (f7 ≠ EmptyString ∧ stod f7 = None) ∨ P).
  { intros A k P Hk. case_decide as E7; simpl; [rewrite Hk; tauto|].
    destruct (stod f7); simpl; [rewrite Hk|]; intuition congruence. }
  rewrite (Hprice _ _
             (stoul f8 = None ∨ stoul f9 = None ∨ stoull f10 = None
              ∨ stoul f11 = None ∨ stoul f12 = None ∨ stoull f13 = None));
    [intuition congruence|].
  intros price.
  destruct (stoul f8) eqn:E8; simpl; [|intuition congruence].
  destruct (stoul f9) eqn:E9; simpl; [|intuition congruence].
  destruct (stoull f10) eqn:E10; simpl; [|intuition congruence].
  destruct (stoul f11) eqn:E11; simpl; [|intuition congruence].
  destruct (stoul f12) eqn:E12; simpl; [|intuition congruence].
  destruct (stoull f13) eqn:E13; simpl; intuition congruence.
Qed.

Lemma parse_mbo_line_action_side {double : Type} (stod : string → option double)
    (scaled_price : double → Z) (mktime : Z → Z → Z → Z → Z → Z → Z)
    (line : string) (record : MBORecord) :
  parse_mbo_line stod scaled_price mktime line = Some record →
  mbo_action record = parse_action (first_char (field (split_fields line) 5))
  ∧ mbo_side record = parse_side (first_char (field (split_fields line) 6)).
Proof.
  unfold parse_mbo_line. case_decide as Hline; [done|].
  destruct (split_fields line)
    as [|f0 [|f1 [|f2 [|f3 [|f4 [|f5 [|f6 [|f7 [|f8 [|f9 [|f10 [|f11 [|f12
        [|f13 [|f14 [|f15 rest]]]]]]]]]]]]]]]]; try done.
  unfold field. simpl. intros H.
  repeat match type of H with
         | mbind _ ?m = Some _ => destruct m; simpl in H; [|done]
         end.
  by injection H as <-.
Qed.

(** C8, as stated, fails: a 15-field row whose action character is X and
    whose side character is Z is not dropped.  Whatever [std::stod] and
    [std::mktime] do (the row has an empty price and short time stamps, so
    the reader calls neither), the reader returns a record, with action ADD
    and side NEUTRAL. *)
Lemma unknown_action_and_side_accepted :
  field (split_fields "0,0,160,2,1108,X,Z,,100,0,1,0,0,5,SYM") 5 = "X"
  ∧ field (split_fields "0,0,160,2,1108,X,Z,,100,0,1,0,0,5,SYM") 6 = "Z"
  ∧ ∀ (double : Type) (stod : string → option double)
      (scaled_price : double → Z) (mktime : Z → Z → Z → Z → Z → Z → Z),
      parse_mbo_line stod scaled_price mktime
        "0,0,160,2,1108,X,Z,,100,0,1,0,0,5,SYM"
      = Some (mkMBORecord (mkTimestamp 0 0) 160 2 1108 ADD NEUTRAL 0 100 0 1
                0 0 5 "SYM").
Proof. split_and!; [reflexivity..|]. intros. vm_compute. reflexivity. Qed.

(** C8, amended.  The reader returns no record exactly when the line is
    empty, the tokenizer does not yield 15 fields, or a numeric column
    fails to convert.  The action and side characters never cause a drop:
    the record carries [parse_action] and [parse_side] of the first
    character of columns 5 and 6, which read a character outside
    A, C, T, F, R as ADD and a character outside B, A, N as NEUTRAL. *)
Theorem parse_mbo_line_drops {double : Type} (stod : string → option double)
    (scaled_price : double → Z) (mktime : Z → Z → Z → Z → Z → Z → Z)
    (line : string) :
  (parse_mbo_line stod scaled_price mktime line = None ↔
     line = EmptyString
     ∨ length (split_fields line) ≠ 15%nat
     ∨ numeric_failure stod (split_fields line))
  ∧ (∀ record,
       parse_mbo_line stod scaled_price mktime line = Some record →
       mbo_action record = parse_action (first_char (field (split_fields line) 5))
       ∧ mbo_side record = parse_side (first_char (field (split_fields line) 6)))
  ∧ (∀ c, c ∉ ["A"; "C"; "T"; "F"; "R"]%char → parse_action c = ADD)
  ∧ (∀ c, c ∉ ["B"; "A"; "N"]%char → parse_side c = NEUTRAL).
Proof.
  split_and!.
  - apply parse_mbo_line_none_iff.
  - apply parse_mbo_line_action_side.
  - apply parse_action_fallback.
  - apply parse_side_fallback.
Qed.

(** * Further properties of the code *)

(** ** Books that a stream produces *)

(** X1.  In every book that a stream of records produces, each level kept
    in either side's map stores its own key as price, has a total size
    between 1 and 2^32 - 1 and an order count below 2^32: a level whose
    total reaches 0 is never left in the map. *)
Theorem reachable_book_levels (b : Orderbook) (price : Z)
    (level : OrderbookPriceLevel) :
  reachable b →
  levels_ (bid_side_ b) !! price = Some level
  ∨ levels_ (ask_side_ b) !! price = Some level →
  lvl_price level = price
  ∧ 1 ≤ total_size level < 2 ^ 32
  ∧ 0 ≤ order_count level < 2 ^ 32.
Proof.
  intros [Hb Hk]%reachable_sides Hlevel.
  apply reachable_side_wf in Hb, Hk.
  assert (Hwf : level_wf price level).
  { destruct Hlevel as [Hl|Hl]; [exact (Hb _ _ Hl) | exact (Hk _ _ Hl)]. }
  destruct Hwf as (? & ? & ? & ?). split_and!; try done; lia.
Qed.

Lemma reachable_book_levels_witness :
  lvl_price (mkLevel 1000000 150 2 (<[2 := 50]> {[1 := 100]})) = 1000000
  ∧ 1 ≤ total_size (mkLevel 1000000 150 2 (<[2 := 50]> {[1 := 100]})) < 2 ^ 32
  ∧ 0 ≤ order_count (mkLevel 1000000 150 2 (<[2 := 50]> {[1 := 100]})) < 2 ^ 32.
Proof.
  apply (reachable_book_levels
           (apply_records [event ADD BID 1000000 100 1; event ADD BID 1000000 50 2]
              new_orderbook) 1000000).
  - by eexists.
  - left. vm_compute. reflexivity.
Defined.

(** X2.  In every book that a stream of records produces, the depth
    projection of the bid side and that of the ask side both have 10 slots:
    first the occupied ones, one per level up to 10, each with a non-zero
    size and in strictly descending price order, then sentinels only. *)
Theorem reachable_book_projections (b : Orderbook) :
  reachable b →
  projection_shape (get_top_levels (bid_side_ b)) (occupied_slots (bid_side_ b))
  ∧ projection_shape (get_top_levels (ask_side_ b)) (occupied_slots (ask_side_ b)).
Proof.
  intros [Hb Hk]%reachable_sides.
  split; apply top_levels_shape; by apply reachable_side_wf.
Qed.

Lemma reachable_book_projections_witness :
  projection_shape
    (get_top_levels
       (ask_side_ (apply_records [event ADD ASK 1010000 150 3;
                                  event ADD ASK 1020000 250 4] new_orderbook)))
    2.
Proof.
  apply (reachable_book_projections
           (apply_records [event ADD ASK 1010000 150 3;
                           event ADD ASK 1020000 250 4] new_orderbook)).
  by eexists.
Defined.

(** X3.  The projection shows the levels with the highest prices.  Every
    occupied slot is a level of the map with that level's total size and
    order count; and every level of the map is either shown in one of the
    10 slots or has a price below the price of every slot. *)
Theorem get_top_levels_highest_prices (s : OrderbookSide) :
  (∀ i x, (i < occupied_slots s)%nat → get_top_levels s !! i = Some x →
     ∃ level, levels_ s !! pl_price x = Some level
              ∧ pl_size x = total_size level ∧ pl_count x = order_count level)
  ∧ (∀ price level, levels_ s !! price = Some level →
       (∃ i, (i < MAX_DEPTH)%nat
             ∧ get_top_levels s !! i
               = Some (mkPriceLevel price (total_size level) (order_count level)))
       ∨ (∀ i x, (i < MAX_DEPTH)%nat → get_top_levels s !! i = Some x →
            price < pl_price x)).
Proof.
  unfold occupied_slots. split.
  - intros i x Hi. rewrite get_top_levels_lookup, decide_True by lia.
    destruct (levels_in_order (levels_ s) !! i) as [e|] eqn:E; [|done].
    intros [= <-]. apply levels_in_order_lookup in E.
    exists e.2. by simpl.
  - intros price level Hl.
    assert (Hin : (price, level) ∈ levels_in_order (levels_ s)).
    { unfold levels_in_order. rewrite merge_sort_Permutation.
      by apply elem_of_map_to_list. }
    apply list_elem_of_lookup in Hin as [j Hj].
    assert (Hjlen : (j < size (levels_ s))%nat).
    { rewrite <- length_levels_in_order. by eapply lookup_lt_Some. }
    destruct (decide (j < MAX_DEPTH)%nat) as [Hlt|Hge].
    + left. exists j. split; [done|].
      rewrite get_top_levels_lookup, decide_True by lia. by rewrite Hj.
    + right. intros i x Hi.
      rewrite get_top_levels_lookup, decide_True by lia.
      destruct (levels_in_order (levels_ s) !! i) as [e|] eqn:E; [|done].
      intros [= <-]. simpl.
      apply (levels_in_order_descending (levels_ s) i j e (price, level));
        [lia|done..].
Qed.

(** ** What a stream does to the counters, the sides and the pending trades *)

Lemma wrap64_succ z : wrap64 (wrap64 z + 1) = wrap64 (z + 1).
Proof. unfold wrap64. by rewrite Zplus_mod_idemp_l. Qed.

Lemma stats_process_mbo_record record b :
  stats_ (process_mbo_record record b) =
    if decide (initial_clear record) then stats_ b
    else stats_ (update_stats record b).
Proof.
  unfold process_mbo_record, initial_clear.
  destruct (decide (mbo_action record = CLEAR ∧ mbo_sequence record = 0))
    as [[Ha Hs]|Hn].
  - by rewrite Ha, Hs.
  - assert (bool_decide (mbo_action record = CLEAR) && (mbo_sequence record =? 0)
            = false) as ->.
    { apply andb_false_iff.
      destruct (decide (mbo_action record = CLEAR)) as [Ha|Ha].
      - right. apply Z.eqb_neq. intros Hs. by apply Hn.
      - left. by apply bool_decide_eq_false. }
    unfold update_stats. simpl.
    destruct (mbo_action record) eqn:Ha; simpl; try done.
    + unfold handle_add_order. by destruct (mbo_side record).
    + unfold handle_cancel_order. by destruct (mbo_side record).
    + unfold handle_trade_sequence. by rewrite Ha.
    + unfold handle_trade_sequence. rewrite Ha.
      by destruct (pending_trades_ b !! mbo_order_id record).
Qed.

Lemma count_action_snoc a records record :
  count_action a (records ++ [record]) =
    count_action a records
    + (if decide (mbo_action record = a ∧ ¬ initial_clear record) then 1 else 0).
Proof.
  unfold count_action. rewrite filter_app, length_app, filter_cons, filter_nil.
  case_decide; simpl; lia.
Qed.

Lemma count_processed_snoc records record :
  count_processed (records ++ [record]) =
    count_processed records
    + (if decide (initial_clear record) then 0 else 1).
Proof.
  unfold count_processed.
  rewrite filter_app, length_app, filter_cons, filter_nil.
  repeat case_decide; simpl; try lia; tauto.
Qed.

(** X4.  Starting from zeroed counters, after any stream of records
    [records_processed] is the number of records other than initial clears,
    [orders_added] the number of ADD records, [orders_cancelled] the number
    of CANCEL records and [trades_processed] the number of TRADE records
    (FILL records are not counted as trades), each as a 64-bit value. *)
Theorem stats_count_the_stream (records : list MBORecord) (b : Orderbook) :
  let st := get_stats (apply_records records (reset_stats b)) in
  records_processed st = wrap64 (count_processed records)
  ∧ orders_added st = wrap64 (count_action ADD records)
  ∧ orders_cancelled st = wrap64 (count_action CANCEL records)
  ∧ trades_processed st = wrap64 (count_action TRADE records).
Proof.
  cbv zeta. unfold get_stats, apply_records.
  induction records as [|record rest IH] using rev_ind; [done|].
  rewrite foldl_snoc, stats_process_mbo_record.
  rewrite count_processed_snoc, !count_action_snoc.
  destruct IH as (IH1 & IH2 & IH3 & IH4).
  destruct (decide (initial_clear record)) as [Hc|Hc].
  - rewrite !decide_False by tauto. rewrite !Z.add_0_r. done.
  - unfold update_stats. simpl. rewrite IH1, IH2, IH3, IH4.
    destruct (mbo_action record) eqn:Ha; simpl;
      repeat case_decide; try tauto; try (destruct_and?; congruence);
      rewrite ?Z.add_0_r, ?wrap64_succ; done.
Qed.

Lemma bid_side_process_mbo_record record b :
  bid_side_ (process_mbo_record record b) =
    if decide (mbo_side record = BID)
    then replay_on_side [record] (bid_side_ b)
    else bid_side_ b.
Proof.
  unfold process_mbo_record, replay_on_side. simpl foldl.
  destruct (bool_decide _ && _) eqn:Hclear.
  - apply andb_true_iff in Hclear as [Ha%bool_decide_eq_true _].
    rewrite Ha. simpl. by case_decide.
  - destruct (mbo_action record) eqn:Ha; simpl.
    + unfold handle_add_order. by destruct (mbo_side record).
    + unfold handle_cancel_order. by destruct (mbo_side record).
    + rewrite (proj1 (sides_handle_trade_or_fill record b (or_introl Ha))).
      by destruct (decide _).
    + rewrite (proj1 (sides_handle_trade_or_fill record b (or_intror Ha))).
      by destruct (decide _).
    + by destruct (decide _).
Qed.

Lemma ask_side_process_mbo_record record b :
  ask_side_ (process_mbo_record record b) =
    if decide (mbo_side record = ASK)
    then replay_on_side [record] (ask_side_ b)
    else ask_side_ b.
Proof.
  unfold process_mbo_record, replay_on_side. simpl foldl.
  destruct (bool_decide _ && _) eqn:Hclear.
  - apply andb_true_iff in Hclear as [Ha%bool_decide_eq_true _].
    rewrite Ha. simpl. by case_decide.
  - destruct (mbo_action record) eqn:Ha; simpl.
    + unfold handle_add_order. by destruct (mbo_side record).
    + unfold handle_cancel_order. by destruct (mbo_side record).
    + rewrite (proj2 (sides_handle_trade_or_fill record b (or_introl Ha))).
      by destruct (decide _).
    + rewrite (proj2 (sides_handle_trade_or_fill record b (or_intror Ha))).
      by destruct (decide _).
    + by destruct (decide _).
Qed.

(** X5.  The two side books are independent and see adds and cancels only:
    after any stream the bid book is what replaying the ADD and CANCEL
    records of side BID on it gives, and the ask book what replaying those
    of side ASK gives.  Records of the other side, NEUTRAL records and
    TRADE, FILL and REPLACE records never change a side book. *)
Theorem sides_replay_their_records (records : list MBORecord) (b : Orderbook) :
  bid_side_ (apply_records records b) =
    replay_on_side (filter (fun record => mbo_side record = BID) records)
      (bid_side_ b)
  ∧ ask_side_ (apply_records records b) =
    replay_on_side (filter (fun record => mbo_side record = ASK) records)
      (ask_side_ b).
Proof.
  unfold apply_records. revert b.
  induction records as [|record rest IH]; intros b; [done|].
  simpl. destruct (IH (process_mbo_record record b)) as [-> ->].
  rewrite bid_side_process_mbo_record, ask_side_process_mbo_record.
  rewrite !filter_cons. split; by case_decide.
Qed.

Lemma pending_process_mbo_record record b :
  dom (pending_trades_ (process_mbo_record record b)) =
    if decide (mbo_action record = TRADE)
    then {[mbo_order_id record]} ∪ dom (pending_trades_ b)
    else dom (pending_trades_ b).
Proof.
  unfold process_mbo_record.
  destruct (bool_decide _ && _) eqn:Hclear.
  - apply andb_true_iff in Hclear as [Ha%bool_decide_eq_true _].
    rewrite Ha. by case_decide.
  - destruct (mbo_action record) eqn:Ha; simpl.
    + unfold handle_add_order. by destruct (mbo_side record).
    + unfold handle_cancel_order. by destruct (mbo_side record).
    + unfold handle_trade_sequence. rewrite Ha. simpl. apply dom_insert_L.
    + unfold handle_trade_sequence. rewrite Ha.
      destruct (pending_trades_ b !! mbo_order_id record) eqn:E; [|done].
      simpl. by apply dom_insert_lookup_L.
    + done.
Qed.

(** X6.  Entries of the pending-trade table are never removed by
    [process_mbo_record]: after any stream the table holds exactly the
    order ids it held before and the order ids of the TRADE records of the
    stream (a FILL changes an entry it finds, a CANCEL removes none). *)
Theorem pending_trades_only_grow (records : list MBORecord) (b : Orderbook) :
  dom (pending_trades_ (apply_records records b)) =
    dom (pending_trades_ b) ∪ trade_ids records.
Proof.
  unfold apply_records, trade_ids. revert b.
  induction records as [|record rest IH]; intros b.
  - simpl. by rewrite (right_id_L ∅ (∪)).
  - simpl. rewrite IH, pending_process_mbo_record, filter_cons.
    case_decide; simpl; [|done].
    by rewrite (comm_L (∪) {[mbo_order_id record]}), <- (assoc_L (∪)).
Qed.

(** ** Frames and accounting of the side operations *)

Lemma levels_update_level_other price order_id size is_add s p :
  p ≠ price →
  levels_ (update_level price order_id size is_add s) !! p = levels_ s !! p.
Proof.
  intros Hp. unfold update_level, remove_level_if_empty. simpl.
  rewrite lookup_insert_eq. simpl.
  destruct (total_size _ =? 0); simpl.
  - by rewrite lookup_delete_ne, lookup_insert_ne.
  - by rewrite lookup_insert_ne.
Qed.


(** X8.  [size()] counts the tracked orders: an add raises it by one exactly
    when the order id was not tracked yet (an add of size 0 included, and
    the side is then not [empty()]), and a cancel lowers it by one exactly
    when the id is tracked with a size of at most the cancel's size. *)
Theorem side_size_accounting (order_id price size : Z) (s : OrderbookSide) :
  side_size (add_order order_id price size s)
    = (if has_order order_id s then side_size s else S (side_size s))
  ∧ side_empty (add_order order_id price size s) = false
  ∧ side_size (cancel_order order_id price size s)
    = match order_lookup_ s !! order_id with
      | Some (_, order_size) =>
          if order_size <=? size then pred (side_size s) else side_size s
      | None => side_size s
      end.
Proof.
  unfold side_size, side_empty, has_order. split_and!.
  - destruct (add_order_effect order_id price size s) as (-> & _ & _).
    destruct (order_lookup_ s !! order_id) as [v|] eqn:E.
    + rewrite bool_decide_eq_true_2 by eauto.
      by rewrite map_size_insert_Some by eauto.
    + rewrite bool_decide_eq_false_2 by (by intros [? ?]).
      by apply map_size_insert_None.
  - destruct (add_order_effect order_id price size s) as (-> & _ & _).
    apply bool_decide_eq_false. apply insert_non_empty.
  - unfold cancel_order. rewrite order_lookup_cancel, order_lookup_update_level.
    destruct (order_lookup_ s !! order_id) as [[op os]|] eqn:E; [|done].
    destruct (os <=? size).
    + by rewrite map_size_delete_Some by eauto.
    + by rewrite map_size_insert_Some by eauto.
Qed.

(** X9.  A trade against an order is a cancel at the price under which the
    order is indexed, for the traded size clipped to the order's size; the
    price passed to [trade_order] plays no part.  A trade against an order
    id that the index does not hold changes nothing. *)
Theorem trade_order_is_clipped_cancel (order_id price size : Z)
    (s : OrderbookSide) :
  trade_order order_id price size s =
    match order_lookup_ s !! order_id with
    | Some (order_price, order_size) =>
        cancel_order order_id order_price (Z.min size order_size) s
    | None => s
    end.
Proof.
  unfold trade_order, cancel_order.
  destruct (order_lookup_ s !! order_id) as [[op os]|]; [|done].
  destruct (os <=? size) eqn:E.
  - apply Z.leb_le in E. by rewrite Z.min_r.
  - apply Z.leb_gt in E. by rewrite Z.min_l by lia.
Qed.

(** ** The trade-sequence routine *)

Lemma wrap32_sub_sub a b c : wrap32 (wrap32 (a - b) - c) = wrap32 (a - (b + c)).
Proof. unfold wrap32. rewrite Zminus_mod_idemp_l. f_equal. lia. Qed.

(** FILL records for [order_id] rewrite the remaining size of its pending
    entry and nothing else. *)
Lemma handle_fills order_id fills : ∀ b seq,
  Forall (fun f => mbo_action f = FILL ∧ mbo_order_id f = order_id) fills →
  pending_trades_ b !! order_id = Some seq →
  0 ≤ remaining_size seq < 2 ^ 32 →
  foldl (fun acc f => handle_trade_sequence f acc) b fills =
    mkOrderbook (bid_side_ b) (ask_side_ b) (stats_ b)
      (<[order_id :=
           mkTradeSequence (seq_order_id seq) (seq_side seq) (seq_price seq)
             (wrap32 (remaining_size seq - total_size_of fills))
             (seq_timestamp seq)]> (pending_trades_ b)).
Proof.
  induction fills as [|f rest IH]; intros b seq Hall Hseq Hrange.
  - simpl. rewrite Z.sub_0_r, wrap32_small by done.
    destruct b, seq. simpl in *. by rewrite insert_id.
  - apply Forall_cons in Hall as [[Ha Hid] Hall]. simpl.
    unfold handle_trade_sequence at 2. rewrite Ha, Hid, Hseq.
    rewrite (IH _ (mkTradeSequence (seq_order_id seq) (seq_side seq)
                     (seq_price seq)
                     (wrap32 (remaining_size seq - mbo_size f))
                     (seq_timestamp seq))).
    + simpl. by rewrite insert_insert_eq, wrap32_sub_sub.
    + done.
    + simpl. apply lookup_insert_eq.
    + simpl. apply wrap32_range.
Qed.

(** X10.  What [handle_trade_sequence] computes for a TRADE record, then
    FILL records, then a CANCEL record, all for one order id: the side
    opposite to the TRADE record's side (the ask book for BID, the bid book
    otherwise) receives [trade_order] for the TRADE size minus the sum of
    the FILL sizes, as a 32-bit value, the other side is not touched and the
    pending entry is removed. *)
Theorem handle_trade_sequence_consumes (t c : MBORecord)
    (fills : list MBORecord) (b : Orderbook) :
  mbo_action t = TRADE →
  mbo_action c = CANCEL →
  mbo_order_id c = mbo_order_id t →
  Forall (fun f => mbo_action f = FILL ∧ mbo_order_id f = mbo_order_id t) fills →
  0 ≤ mbo_size t < 2 ^ 32 →
  let amount := wrap32 (mbo_size t - total_size_of fills) in
  let pending := delete (mbo_order_id t) (pending_trades_ b) in
  handle_trade_sequence c
    (foldl (fun acc f => handle_trade_sequence f acc)
       (handle_trade_sequence t b) fills)
  = if decide (mbo_side t = BID)
    then mkOrderbook (bid_side_ b)
           (trade_order (mbo_order_id t) (mbo_price t) amount (ask_side_ b))
           (stats_ b) pending
    else mkOrderbook
           (trade_order (mbo_order_id t) (mbo_price t) amount (bid_side_ b))
           (ask_side_ b) (stats_ b) pending.
Proof.
  intros Ht Hc Hid Hfills Hsize. cbv zeta.
  rewrite (handle_fills (mbo_order_id t) fills _
             (mkTradeSequence (mbo_order_id t) (mbo_side t) (mbo_price t)
                (mbo_size t) (ts_event (mbo_timestamp t)))); [|done| |].
  - unfold handle_trade_sequence at 1. rewrite Hc, Hid. simpl.
    rewrite lookup_insert_eq. simpl.
    unfold handle_trade_sequence. rewrite Ht. simpl.
    rewrite delete_insert_eq, delete_insert_eq.
    by destruct (decide (mbo_side t = BID)).
  - unfold handle_trade_sequence. rewrite Ht. simpl. apply lookup_insert_eq.
  - simpl. done.
Qed.

Lemma handle_trade_sequence_consumes_witness :
  handle_trade_sequence (event CANCEL ASK 1000000 30 99)
    (foldl (fun acc f => handle_trade_sequence f acc)
       (handle_trade_sequence (event TRADE ASK 1000000 40 99)
          (process_mbo_record (event ADD BID 1000000 100 99) new_orderbook))
       [event FILL ASK 1000000 10 99])
  = mkOrderbook
      (trade_order 99 1000000 (wrap32 (40 - (10 + 0)))
         (bid_side_ (process_mbo_record (event ADD BID 1000000 100 99)
                       new_orderbook)))
      empty_side (mkStats 1 0 1 0) (delete 99 ∅).
Proof.
  apply (handle_trade_sequence_consumes (event TRADE ASK 1000000 40 99)
           (event CANCEL ASK 1000000 30 99) [event FILL ASK 1000000 10 99]).
  - reflexivity.
  - reflexivity.
  - reflexivity.
  - repeat constructor.
  - simpl. lia.
Defined.

(** ** Streams that keep the side in order *)

Lemma member_sum_insert lvl_p total count members order_id sz :
  members !! order_id = None →
  member_sum (mkLevel lvl_p total count (<[order_id := sz]> members))
  = sz + member_sum (mkLevel lvl_p total count members).
Proof.
  intros Hnone. unfold member_sum. simpl.
  apply (map_fold_insert_L (fun _ sz acc => sz + acc)); [|done].
  intros. lia.
Qed.

Lemma member_sum_delete lvl_p total count members order_id sz :
  members !! order_id = Some sz →
  member_sum (mkLevel lvl_p total count members)
  = sz + member_sum (mkLevel lvl_p total count (delete order_id members)).
Proof.
  intros Hsome. unfold member_sum. simpl.
  apply (map_fold_delete_L (fun _ sz acc => sz + acc)); [|done].
  intros. lia.
Qed.

(** With members of size at least 1, a level has at most as many members
    as the sum of their sizes. *)
Lemma size_le_member_sum lvl_p total count members :
  (∀ order_id sz, members !! order_id = Some sz → 1 ≤ sz) →
  Z.of_nat (size members) ≤ member_sum (mkLevel lvl_p total count members).
Proof.
  induction members as [|k v m Hk IH] using map_ind; intros Hpos.
  - unfold member_sum. simpl. by rewrite map_fold_empty, map_size_empty.
  - rewrite member_sum_insert, map_size_insert_None by done.
    assert (1 ≤ v) by (apply (Hpos k); apply lookup_insert_eq).
    assert (Z.of_nat (size m) ≤ member_sum (mkLevel lvl_p total count m)).
    { apply IH. intros k' v' Hk'. apply (Hpos k').
      rewrite lookup_insert_ne; [done|]. intros ->. congruence. }
    lia.
Qed.

Lemma orderly_empty : orderly empty_side.
Proof.
  unfold orderly, index_coherence, aggregation. simpl. split_and!.
  - apply side_wf_empty.
  - intros ? ? ?. by rewrite lookup_empty.
  - intros ? ? ? ?. by rewrite lookup_empty.
  - intros ? ?. by rewrite lookup_empty.
  - intros ? ? ? ?. by rewrite lookup_empty.
Qed.

(** Adds of new orders keep the side in order. *)
Lemma orderly_add_order (order_id price qty : Z) (s : OrderbookSide) :
  orderly s →
  order_lookup_ s !! order_id = None →
  1 ≤ qty →
  aggregated_size price s + qty < 2 ^ 32 →
  orderly (add_order order_id price qty s).
Proof.
  intros (Hwf & [Hfw Hbw] & Hagg & Hpos) Hnew Hqty Hroom.
  destruct (add_order_effect order_id price qty s) as (Hix & Hother & Hat).
  set (level0 := default new_level (levels_ s !! price)) in *.
  assert (Hmem0 : ∀ other sz, orders level0 !! other = Some sz →
            levels_ s !! price = Some level0 ∧ 1 ≤ sz
            ∧ order_lookup_ s !! other = Some (price, sz)).
  { intros other sz. unfold level0.
    destruct (levels_ s !! price) as [level|] eqn:E; simpl; [|done].
    intros Hm. split_and!; [done|by eapply Hpos|by eapply Hbw]. }
  assert (Hnone0 : orders level0 !! order_id = None).
  { destruct (orders level0 !! order_id) as [sz|] eqn:E; [|done].
    destruct (Hmem0 _ _ E) as (_ & _ & Hi). congruence. }
  assert (Hagg0 : total_size level0 = member_sum level0
                  ∧ 0 ≤ total_size level0
                  ∧ order_count level0 = Z.of_nat (size (orders level0))).
  { unfold level0. destruct (levels_ s !! price) as [level|] eqn:E; simpl.
    - destruct (Hagg _ _ E) as (? & ? & ? & ?). split_and!; [done|lia|done].
    - unfold member_sum. simpl. by rewrite map_fold_empty, map_size_empty. }
  destruct Hagg0 as (Hsum0 & Hnn0 & Hcount0).
  assert (Htotal0 : aggregated_size price s = total_size level0).
  { unfold aggregated_size, level0. by destruct (levels_ s !! price). }
  rewrite Htotal0 in Hroom.
  assert (Hle0 : Z.of_nat (size (orders level0)) ≤ total_size level0).
  { rewrite Hsum0. destruct level0 as [lp lt lc lo]. simpl in *.
    apply size_le_member_sum. intros other sz Hm.
    by destruct (Hmem0 _ _ Hm) as (_ & ? & _). }
  rewrite (wrap32_small (total_size level0 + qty)) in Hat by lia.
  rewrite (wrap32_small (order_count level0 + 1)) in Hat by lia.
  assert ((total_size level0 + qty =? 0) = false) as Hnz
    by (apply Z.eqb_neq; lia).
  rewrite Hnz in Hat. clear Hnz.
  split_and!.
  - by apply side_wf_add_order.
  - split.
    + intros other p sz. rewrite Hix.
      destruct (decide (other = order_id)) as [->|Hne].
      * rewrite lookup_insert_eq. intros [= <- <-].
        eexists. split; [exact Hat|]. simpl. apply lookup_insert_eq.
      * rewrite lookup_insert_ne by done. intros Hi.
        destruct (Hfw _ _ _ Hi) as (level & Hl & Hm).
        destruct (decide (p = price)) as [->|Hp].
        -- eexists. split; [exact Hat|]. simpl.
           rewrite lookup_insert_ne by done.
           unfold level0. by rewrite Hl.
        -- exists level. by rewrite Hother.
    + intros p level other sz Hl Hm.
      destruct (decide (p = price)) as [->|Hp].
      * rewrite Hat in Hl. injection Hl as <-. simpl in Hm. rewrite Hix.
        destruct (decide (other = order_id)) as [->|Hne].
        -- rewrite lookup_insert_eq in Hm. injection Hm as <-.
           apply lookup_insert_eq.
        -- rewrite lookup_insert_ne in Hm by done.
           rewrite lookup_insert_ne by done.
           by destruct (Hmem0 _ _ Hm) as (_ & _ & ?).
      * rewrite Hother in Hl by done.
        pose proof (Hbw _ _ _ _ Hl Hm) as Hi. rewrite Hix.
        rewrite lookup_insert_ne; [done|]. intros ->. congruence.
  - intros p level Hl.
    destruct (decide (p = price)) as [->|Hp].
    + rewrite Hat in Hl. injection Hl as <-. simpl.
      rewrite member_sum_insert by done.
      rewrite map_size_insert_None by done.
      destruct level0 as [lp lt lc lo]. simpl in *.
      unfold member_sum in *. simpl in *. lia.
    + rewrite Hother in Hl by done. by apply (Hagg p).
  - intros p level other sz Hl Hm.
    destruct (decide (p = price)) as [->|Hp].
    + rewrite Hat in Hl. injection Hl as <-. simpl in Hm.
      destruct (decide (other = order_id)) as [->|Hne].
      * rewrite lookup_insert_eq in Hm. by injection Hm as <-.
      * rewrite lookup_insert_ne in Hm by done.
        by destruct (Hmem0 _ _ Hm) as (_ & ? & _).
    + rewrite Hother in Hl by done. by eapply Hpos.
Qed.

(** X11.  Adds of new orders keep the side in order: when index coherence
    and aggregation hold (with members of size at least 1), the order id is
    not indexed, the size is at least 1 and the level's aggregated size
    plus the size stays below 2^32, they hold again after the add. *)
Theorem add_order_keeps_order (order_id price qty : Z) (s : OrderbookSide) :
  orderly s →
  order_lookup_ s !! order_id = None →
  1 ≤ qty →
  aggregated_size price s + qty < 2 ^ 32 →
  orderly (add_order order_id price qty s).
Proof. apply orderly_add_order. Qed.

Lemma add_order_keeps_order_witness :
  orderly (add_order 2 1000000 50 (add_order 1 1000000 100 empty_side)).
Proof.
  apply add_order_keeps_order.
  - apply orderly_add_order.
    + apply orderly_empty.
    + reflexivity.
    + lia.
    + vm_compute. reflexivity.
  - vm_compute. reflexivity.
  - lia.
  - vm_compute. reflexivity.
Defined.



(** ** The tokenizer *)

Lemma string_app_cons (c : ascii) (s t : string) :
  String c s +:+ t = String c (s +:+ t).
Proof. reflexivity. Qed.

Lemma string_app_nil_r (s : string) : s +:+ EmptyString = s.
Proof.
  induction s as [|c s IH]; [done|]. by rewrite string_app_cons, IH.
Qed.

Lemma string_app_assoc (a b c : string) : (a +:+ b) +:+ c = a +:+ b +:+ c.
Proof.
  induction a as [|x a IH]; [done|]. by rewrite !string_app_cons, IH.
Qed.

Lemma split_from_nil rest field :
  split_from rest field = [] → rest = EmptyString.
Proof.
  revert field. induction rest as [|c rest IH]; intros field; simpl; [done|].
  case_decide; [done|]. intros Hnil. exfalso.
  pose proof (IH _ Hnil) as ->. simpl in Hnil.
  case_decide as Hf; [|done]. by destruct field.
Qed.

Lemma join_fields_cons f rest :
  rest ≠ [] → join_fields (f :: rest) = f +:+ "," +:+ join_fields rest.
Proof. by destruct rest. Qed.

Lemma ends_with_comma_cons c rest :
  rest ≠ EmptyString ∨ c ≠ ","%char →
  ends_with_comma (String c rest) = ends_with_comma rest.
Proof.
  destruct rest; [|done]. intros [?|Hc]; [done|].
  simpl. by apply bool_decide_eq_false.
Qed.

Lemma split_from_round_trip rest : ∀ field,
  join_fields (split_from rest field)
    +:+ (if ends_with_comma rest then "," else EmptyString)
  = field +:+ rest.
Proof.
  induction rest as [|c rest IH]; intros field; simpl split_from.
  - simpl ends_with_comma. case_decide as Hf.
    + by rewrite Hf.
    + done.
  - destruct (decide (c = ","%char)) as [->|Hc].
    + destruct (decide (rest = EmptyString)) as [->|Hrest].
      * done.
      * rewrite join_fields_cons
          by (intros Hnil; by apply split_from_nil in Hnil).
        rewrite ends_with_comma_cons by (by left).
        rewrite !string_app_assoc, IH. done.
    + rewrite ends_with_comma_cons by (by right).
      rewrite IH. by rewrite string_app_assoc.
Qed.

(** X13.  The tokenizer loses nothing but a trailing comma: the fields of a
    line, written with commas between them, give the line back, up to one
    comma at the very end of the line, which closes the last field without
    opening another. *)
Theorem split_fields_round_trip (line : string) :
  join_fields (split_fields line)
    +:+ (if ends_with_comma line then "," else EmptyString)
  = line.
Proof. unfold split_fields. by rewrite split_from_round_trip. Qed.

Lemma commas_app (a b : string) : commas (a +:+ b) = (commas a + commas b)%nat.
Proof.
  induction a as [|c a IH]; [done|].
  rewrite string_app_cons. simpl. rewrite IH. lia.
Qed.

Lemma length_split_from rest : ∀ field,
  length (split_from rest field) =
    (commas rest
     + (if decide (rest = EmptyString)
        then (if decide (field = EmptyString) then 0 else 1)
        else (if ends_with_comma rest then 0 else 1)))%nat.
Proof.
  induction rest as [|c rest IH]; intros field; simpl split_from.
  - simpl. by case_decide.
  - rewrite (decide_False (P := String c rest = EmptyString)) by done.
    destruct (decide (c = ","%char)) as [->|Hc].
    + simpl length. rewrite IH. simpl commas.
      destruct (decide (rest = EmptyString)) as [->|Hrest].
      * by rewrite decide_True by done.
      * rewrite ends_with_comma_cons by (by left). done.
    + rewrite IH. simpl commas.
      rewrite (decide_False (P := c = ","%char)) by done.
      rewrite ends_with_comma_cons by (by right).
      destruct (decide (rest = EmptyString)) as [->|Hrest]; [|done].
      rewrite (decide_False (P := field +:+ String c EmptyString = EmptyString));
        [done|]. by destruct field.
Qed.

Lemma split_from_comma_free rest : ∀ field,
  commas field = 0%nat →
  Forall (fun f => commas f = 0%nat) (split_from rest field).
Proof.
  induction rest as [|c rest IH]; intros field Hfield; simpl.
  - case_decide; [constructor|]. by repeat constructor.
  - case_decide.
    + constructor; [done|]. by apply IH.
    + apply IH. rewrite commas_app, Hfield. simpl. by rewrite decide_False.
Qed.

Lemma split_fields_comma_free (line : string) :
  Forall (fun f => commas f = 0%nat) (split_fields line).
Proof. unfold split_fields. by apply split_from_comma_free. Qed.

Lemma length_split_fields (line : string) :
  length (split_fields line) =
    (commas line
     + (if decide (line = EmptyString) then 0
        else if ends_with_comma line then 0 else 1))%nat.
Proof.
  unfold split_fields. rewrite length_split_from. by repeat case_decide.
Qed.

(** X14.  The fields that the tokenizer yields contain no comma, and their
    number is the number of commas of the line, plus one when the line is
    not empty and does not end with a comma. *)
Theorem split_fields_count (line : string) :
  Forall (fun f => commas f = 0%nat) (split_fields line)
  ∧ length (split_fields line) =
      (commas line
       + (if decide (line = EmptyString) then 0
          else if ends_with_comma line then 0 else 1))%nat.
Proof.
  split; [apply split_fields_comma_free | apply length_split_fields].
Qed.

(** ** Records that the reader returns *)

Lemma read_digits_nonneg s : ∀ acc v,
  (∀ a, acc = Some a → 0 ≤ a) → read_digits s acc = Some v → 0 ≤ v.
Proof.
  induction s as [|c s IH]; intros acc v Hacc; simpl.
  - intros ->. by apply Hacc.
  - destruct (digit_value c) as [d|] eqn:Hd.
    + apply IH. intros a [= <-].
      unfold digit_value in Hd.
      destruct ((48 <=? char_code c) && (char_code c <=? 57)) eqn:E; [|done].
      injection Hd as <-. apply andb_true_iff in E as [E1%Z.leb_le _].
      assert (0 ≤ default 0 acc) by (destruct acc; simpl; [by apply Hacc|done]).
      lia.
    + intros ->. by apply Hacc.
Qed.

Lemma parse_unsigned_range s v : parse_unsigned s = Some v → 0 ≤ v < 2 ^ 64.
Proof.
  unfold parse_unsigned.
  destruct (match skip_space s with
            | String "-"%char rest => (true, rest)
            | String "+"%char rest => (false, rest)
            | _ => (false, skip_space s)
            end) as [negative s2].
  destruct (read_digits s2 None) as [n|] eqn:Hn; [|done].
  apply read_digits_nonneg in Hn; [|done].
  destruct (2 ^ 64 <=? n) eqn:E; [done|]. apply Z.leb_gt in E.
  intros [= <-]. destruct negative; [|lia].
  unfold wrap64. apply Z.mod_pos_bound. lia.
Qed.

Lemma wrap16_range z : 0 ≤ wrap16 z < 2 ^ 16.
Proof. unfold wrap16. apply Z.mod_pos_bound. lia. Qed.

(** X15.  Every record that the reader returns fits the C++ types of its
    numeric columns: record type, publisher and channel are 16-bit values,
    instrument, size, flags and [ts_in_delta] 32-bit values (larger inputs
    are truncated, not rejected), order id and sequence 64-bit values; and
    its symbol is the fifteenth field, which contains no comma. *)
Theorem parsed_record_in_range {double : Type} (stod : string → option double)
    (scaled_price : double → Z) (mktime : Z → Z → Z → Z → Z → Z → Z)
    (line : string) (record : MBORecord) :
  parse_mbo_line stod scaled_price mktime line = Some record →
  0 ≤ mbo_rtype record < 2 ^ 16
  ∧ 0 ≤ mbo_publisher_id record < 2 ^ 16
  ∧ 0 ≤ mbo_instrument_id record < 2 ^ 32
  ∧ 0 ≤ mbo_size record < 2 ^ 32
  ∧ 0 ≤ mbo_channel_id record < 2 ^ 16
  ∧ 0 ≤ mbo_order_id record < 2 ^ 64
  ∧ 0 ≤ mbo_flags record < 2 ^ 32
  ∧ 0 ≤ mbo_ts_in_delta record < 2 ^ 32
  ∧ 0 ≤ mbo_sequence record < 2 ^ 64
  ∧ mbo_symbol record = field (split_fields line) 14
  ∧ commas (mbo_symbol record) = 0%nat.
Proof.
  unfold parse_mbo_line. case_decide as Hline; [done|].
  pose proof (split_fields_comma_free line) as Hfree.
  destruct (split_fields line)
    as [|f0 [|f1 [|f2 [|f3 [|f4 [|f5 [|f6 [|f7 [|f8 [|f9 [|f10 [|f11 [|f12
        [|f13 [|f14 [|f15 rest]]]]]]]]]]]]]]]]; try done.
  unfold field. simpl. intros H.
  destruct (stoul f2) eqn:E2; simpl in H; [|done].
  destruct (stoul f3) eqn:E3; simpl in H; [|done].
  destruct (stoul f4) eqn:E4; simpl in H; [|done].
  destruct (parse_price stod scaled_price f7) eqn:E7; simpl in H; [|done].
  destruct (stoul f8) eqn:E8; simpl in H; [|done].
  destruct (stoul f9) eqn:E9; simpl in H; [|done].
  destruct (stoull f10) eqn:E10; simpl in H; [|done].
  destruct (stoul f11) eqn:E11; simpl in H; [|done].
  destruct (stoul f12) eqn:E12; simpl in H; [|done].
  destruct (stoull f13) eqn:E13; simpl in H; [|done].
  injection H as <-. simpl.
  apply parse_unsigned_range in E10, E13.
  rewrite !Forall_cons in Hfree.
  split_and!; try apply wrap16_range; try apply wrap32_range; try done;
    try lia; tauto.
Qed.

Lemma parsed_record_in_range_witness :
  0 ≤ mbo_size (mkMBORecord (mkTimestamp 0 0) 160 2 1108 ADD NEUTRAL 0
                  (wrap32 4294967396) 0 1 0 0 5 "SYM") < 2 ^ 32.
Proof.
  pose proof (parsed_record_in_range (double := unit) (fun _ => None)
                (fun _ => 0) (fun _ _ _ _ _ _ => 0)
                "0,0,160,2,1108,X,Z,,4294967396,0,1,0,0,5,SYM"
                (mkMBORecord (mkTimestamp 0 0) 160 2 1108 ADD NEUTRAL 0
                   (wrap32 4294967396) 0 1 0 0 5 "SYM")) as H.
  destruct H as (_ & _ & _ & H & _).
  - vm_compute. reflexivity.
  - exact H.
Defined.

(** X16.  The characters that the formatter writes for an action and a
    side are read back by [parse_action] and [parse_side] as the same
    action and side. *)
Theorem action_side_round_trip (a : Action) (s : Side) :
  parse_action (action_char a) = a ∧ parse_side (side_char s) = s.
Proof. split; [by destruct a | by destruct s]. Qed.

(** ** The driver *)

Section ProcessorFacts.
Context {double : Type}.
Variable stod : string → option double.
Variable scaled_price : double → Z.
Variable mktime : Z → Z → Z → Z → Z → Z → Z.
Variable format_timestamp : Z → string.
Variable format_price : Z → string.

(** The rows for the lines that parse, each formatted from the snapshot
    taken right after its record was applied. *)
Definition rows_of (lines : list string) (b : Orderbook) : list string :=
  format_mbp_record format_timestamp format_price
    <$> (process_records (omap (parse_mbo_line stod scaled_price mktime) lines) b).2.

Definition book_after (lines : list string) (b : Orderbook) : Orderbook :=
  apply_records (omap (parse_mbo_line stod scaled_price mktime) lines) b.

Lemma rows_of_cons line lines b :
  rows_of (line :: lines) b =
    match parse_mbo_line stod scaled_price mktime line with
    | Some record =>
        format_mbp_record format_timestamp format_price
          (generate_mbp_record record (process_mbo_record record b))
        :: rows_of lines (process_mbo_record record b)
    | None => rows_of lines b
    end.
Proof.
  unfold rows_of. simpl.
  destruct (parse_mbo_line stod scaled_price mktime line) as [record|]; [|done].
  simpl.
  by destruct (process_records _ (process_mbo_record record b)).
Qed.

Lemma book_after_cons line lines b :
  book_after (line :: lines) b =
    match parse_mbo_line stod scaled_price mktime line with
    | Some record => book_after lines (process_mbo_record record b)
    | None => book_after lines b
    end.
Proof.
  unfold book_after. simpl.
  by destruct (parse_mbo_line stod scaled_price mktime line).
Qed.

Lemma rows_of_app lines1 lines2 b :
  rows_of (lines1 ++ lines2) b =
    rows_of lines1 b ++ rows_of lines2 (book_after lines1 b).
Proof.
  revert b. induction lines1 as [|line lines1 IH]; intros b; [done|].
  simpl. rewrite !rows_of_cons, book_after_cons.
  destruct (parse_mbo_line stod scaled_price mktime line); simpl;
    by rewrite IH.
Qed.

Lemma book_after_app lines1 lines2 b :
  book_after (lines1 ++ lines2) b = book_after lines2 (book_after lines1 b).
Proof.
  unfold book_after, apply_records. by rewrite omap_app, foldl_app.
Qed.

Lemma length_rows_of lines b :
  length (rows_of lines b)
  = length (omap (parse_mbo_line stod scaled_price mktime) lines).
Proof.
  revert b. induction lines as [|line lines IH]; intros b; [done|].
  rewrite rows_of_cons. simpl.
  destruct (parse_mbo_line stod scaled_price mktime line); simpl; by rewrite IH.
Qed.

Lemma process_chunk_spec lines : ∀ p,
  process_chunk stod scaled_price mktime format_timestamp format_price lines p
  = mkProcessor (book_after lines (orderbook_ p)) (buffer_size_ p)
      (processed_records_ p ++ rows_of lines (orderbook_ p)).
Proof.
  unfold process_chunk.
  induction lines as [|line lines IH]; intros p.
  - simpl. unfold rows_of, book_after. simpl. rewrite app_nil_r. by destruct p.
  - simpl. rewrite IH, rows_of_cons, book_after_cons. unfold process_line.
    destruct (parse_mbo_line stod scaled_price mktime line); simpl; [|done].
    by rewrite <- app_assoc.
Qed.

Lemma read_loop_spec input : ∀ lines p output,
  processed_records_ p = [] →
  let result :=
    read_loop stod scaled_price mktime format_timestamp format_price
      input lines p output in
  result.2 = output ++ rows_of (lines ++ input) (orderbook_ p)
  ∧ orderbook_ result.1 = book_after (lines ++ input) (orderbook_ p).
Proof.
  induction input as [|line input IH]; intros lines p output Hclean; cbv zeta.
  - simpl. rewrite app_nil_r. destruct lines as [|l lines].
    + simpl. unfold rows_of, book_after. simpl. by rewrite app_nil_r.
    + rewrite process_chunk_spec, Hclean. done.
  - simpl read_loop.
    replace (lines ++ line :: input) with ((lines ++ [line]) ++ input)
      by (by rewrite <- app_assoc).
    case_decide.
    + rewrite process_chunk_spec, Hclean. simpl.
      destruct (IH [] (mkProcessor (book_after (lines ++ [line]) (orderbook_ p))
                         (buffer_size_ p) [])
                  (output ++ rows_of (lines ++ [line]) (orderbook_ p)) eq_refl)
        as [-> ->].
      simpl. rewrite (rows_of_app (lines ++ [line]) input).
      rewrite (book_after_app (lines ++ [line]) input).
      by rewrite <- app_assoc.
    + by apply IH.
Qed.

End ProcessorFacts.


(** ** The rows that the formatter writes *)

Lemma commas_pretty_N_go (x : N) : ∀ s, commas (pretty_N_go x s) = commas s.
Proof.
  induction (N.lt_wf_0 x) as [x _ IH]. intros s.
  destruct (decide (x = 0%N)) as [->|Hx]; [done|].
  rewrite pretty_N_go_step by lia.
  rewrite IH by (apply N.div_lt; lia).
  simpl. rewrite decide_False; [done|].
  unfold pretty_N_char. by repeat case_match.
Qed.

Lemma pretty_N_go_nonempty (x : N) : ∀ s,
  s ≠ EmptyString → pretty_N_go x s ≠ EmptyString.
Proof.
  induction (N.lt_wf_0 x) as [x _ IH]. intros s Hs.
  destruct (decide (x = 0%N)) as [->|Hx]; [done|].
  rewrite pretty_N_go_step by lia.
  apply IH; [apply N.div_lt; lia|done].
Qed.

Lemma pretty_N_digits (x : N) :
  commas (pretty x) = 0%nat ∧ pretty x ≠ EmptyString.
Proof.
  unfold pretty, pretty_N. case_decide as Hx; [done|].
  split; [by rewrite commas_pretty_N_go|].
  rewrite pretty_N_go_step by lia. by apply pretty_N_go_nonempty.
Qed.

(** The decimal text of an integer has no comma and is not empty. *)
Lemma pretty_Z_digits (z : Z) :
  commas (pretty z) = 0%nat ∧ pretty z ≠ EmptyString.
Proof.
  destruct z as [|x|x]; [done|apply (pretty_N_digits (N.pos x))|].
  unfold pretty, pretty_Z.
  destruct (pretty_N_digits (N.pos x)) as [Hc _].
  split; [|done]. rewrite commas_app. unfold pretty, pretty_positive. by rewrite Hc.
Qed.

Lemma pretty_nat_digits (n : nat) :
  commas (pretty n) = 0%nat ∧ pretty n ≠ EmptyString.
Proof. apply (pretty_N_digits (N.of_nat n)). Qed.

Lemma ends_with_comma_app (a b : string) :
  b ≠ EmptyString → ends_with_comma (a +:+ b) = ends_with_comma b.
Proof.
  intros Hb. induction a as [|c a IH]; [done|].
  rewrite string_app_cons, ends_with_comma_cons; [done|].
  left. destruct a; [done|]. by rewrite string_app_cons.
Qed.

Lemma ends_with_comma_commas (s : string) :
  commas s = 0%nat → ends_with_comma s = false.
Proof.
  induction s as [|c s IH]; [done|]. simpl commas. intros Hc.
  destruct (decide (c = ","%char)) as [->|Hne]; [simpl in Hc; lia|].
  rewrite ends_with_comma_cons by (by right). apply IH.
  simpl in Hc. lia.
Qed.

Section FormatterFacts.
Variable format_timestamp : Z → string.
Variable format_price : Z → string.

Lemma commas_format_level level :
  commas (format_level format_price level)
  = (3 + commas (format_price (pl_price level)))%nat.
Proof.
  unfold format_level. rewrite !commas_app.
  rewrite (proj1 (pretty_Z_digits (pl_size level))).
  rewrite (proj1 (pretty_Z_digits (pl_count level))).
  simpl. lia.
Qed.

Lemma commas_format_levels levels :
  (30 ≤ commas (format_levels format_price levels))%nat
  ∧ ((∀ price, commas (format_price price) = 0%nat) →
     commas (format_levels format_price levels) = 30%nat).
Proof.
  unfold format_levels, MAX_DEPTH. simpl seq. simpl foldl.
  rewrite !commas_app, !commas_format_level. simpl commas.
  split; [lia|]. intros Hfree. rewrite !Hfree. lia.
Qed.

Lemma commas_format_mbp_record record :
  (75 ≤ commas (format_mbp_record format_timestamp format_price record))%nat
  ∧ ((∀ ts, commas (format_timestamp ts) = 0%nat) →
     (∀ price, commas (format_price price) = 0%nat) →
     commas (mbp_symbol record) = 0%nat →
     commas (format_mbp_record format_timestamp format_price record) = 75%nat).
Proof.
  unfold format_mbp_record. rewrite !commas_app.
  rewrite !(proj1 (pretty_Z_digits _)).
  destruct (commas_format_levels (mbp_bid_levels record)) as [Hb1 Hb2].
  destruct (commas_format_levels (mbp_ask_levels record)) as [Ha1 Ha2].
  assert (commas (String (action_char (mbp_action record)) EmptyString) = 0%nat)
    as -> by (by destruct (mbp_action record)).
  assert (commas (String (side_char (mbp_side record)) EmptyString) = 0%nat)
    as -> by (by destruct (mbp_side record)).
  set (bids := commas (format_levels format_price (mbp_bid_levels record))) in *.
  set (asks := commas (format_levels format_price (mbp_ask_levels record))) in *.
  clearbody bids asks. simpl commas. split; [lia|].
  intros Hts Hpr Hsym. rewrite !Hts, !Hpr, Hsym, Ha2, Hb2 by done. lia.
Qed.

Lemma format_mbp_record_end record :
  format_mbp_record format_timestamp format_price record ≠ EmptyString
  ∧ ends_with_comma (format_mbp_record format_timestamp format_price record)
    = false.
Proof.
  split; [done|].
  unfold format_mbp_record. rewrite <- !string_app_assoc.
  destruct (pretty_Z_digits (mbp_order_id record)) as [Hc Hne].
  rewrite ends_with_comma_app by done. by apply ends_with_comma_commas.
Qed.

(** X18.  A row has the columns of the header.  When the texts written for
    time stamps and prices and the symbol contain no comma, the row that
    [format_mbp_record] writes splits into exactly 76 fields, the first of
    them empty, and so does the header row of [process_file]. *)
Theorem format_mbp_record_columns (record : MBPRecord) :
  (∀ ts, commas (format_timestamp ts) = 0%nat) →
  (∀ price, commas (format_price price) = 0%nat) →
  commas (mbp_symbol record) = 0%nat →
  length (split_fields (format_mbp_record format_timestamp format_price record))
  = 76%nat
  ∧ field (split_fields (format_mbp_record format_timestamp format_price record)) 0
    = EmptyString
  ∧ length (split_fields csv_header) = 76%nat.
Proof.
  intros Hts Hpr Hsym.
  destruct (commas_format_mbp_record record) as [_ Hcount].
  destruct (format_mbp_record_end record) as [Hne Hend].
  split_and!.
  - rewrite length_split_fields, Hcount, Hend by done.
    by rewrite decide_False.
  - done.
  - vm_compute. reflexivity.
Qed.

(** X19.  The reader never accepts a row that the formatter wrote: whatever
    the record and the texts written for time stamps and prices, the row
    has at least 75 commas, so it does not split into 15 fields and
    [parse_mbo_line] returns no record for it. *)
Theorem formatted_row_is_not_parsed {double : Type}
    (stod : string → option double) (scaled_price : double → Z)
    (mktime : Z → Z → Z → Z → Z → Z → Z) (record : MBPRecord) :
  parse_mbo_line stod scaled_price mktime
    (format_mbp_record format_timestamp format_price record) = None.
Proof.
  apply parse_mbo_line_none_iff. right. left.
  destruct (commas_format_mbp_record record) as [Hcount _].
  rewrite length_split_fields. lia.
Qed.
End FormatterFacts.

Lemma format_mbp_record_columns_witness :
  length (split_fields
            (format_mbp_record pretty pretty
               (generate_mbp_record (event ADD BID 1000000 100 1)
                  (process_mbo_record (event ADD BID 1000000 100 1)
                     new_orderbook))))
  = 76%nat.
Proof.
  destruct (format_mbp_record_columns pretty pretty
              (generate_mbp_record (event ADD BID 1000000 100 1)
                 (process_mbo_record (event ADD BID 1000000 100 1)
                    new_orderbook))) as (H & _ & _).
  - intros ts. apply pretty_Z_digits.
  - intros price. apply pretty_Z_digits.
  - reflexivity.
  - exact H.
Defined.

(** ** The output file *)

Section OutputFacts.
Context {double : Type}.
Variable stod : string → option double.
Variable scaled_price : double → Z.
Variable mktime : Z → Z → Z → Z → Z → Z → Z.
Variable format_timestamp : Z → string.
Variable format_price : Z → string.

Lemma parsed_symbol_comma_free line record :
  parse_mbo_line stod scaled_price mktime line = Some record →
  commas (mbo_symbol record) = 0%nat.
Proof.
  unfold parse_mbo_line. case_decide as Hline; [done|].
  pose proof (split_from_comma_free line EmptyString eq_refl) as Hfree.
  fold (split_fields line) in Hfree.
  destruct (split_fields line)
    as [|f0 [|f1 [|f2 [|f3 [|f4 [|f5 [|f6 [|f7 [|f8 [|f9 [|f10 [|f11 [|f12
        [|f13 [|f14 [|f15 rest]]]]]]]]]]]]]]]]; try done.
  intros H.
  repeat match type of H with
         | mbind _ ?m = Some _ => destruct m; simpl in H; [|done]
         end.
  injection H as <-. simpl. rewrite !Forall_cons in Hfree. tauto.
Qed.

Lemma snapshots_keep_symbols records : ∀ b,
  Forall (fun record => commas (mbo_symbol record) = 0%nat) records →
  Forall (fun mbp => commas (mbp_symbol mbp) = 0%nat) (process_records records b).2.
Proof.
  induction records as [|record rest IH]; intros b Hall; [constructor|].
  apply Forall_cons in Hall as [Hr Hrest]. simpl.
  specialize (IH (process_mbo_record record b) Hrest).
  destruct (process_records rest (process_mbo_record record b)) as [b' out].
  simpl in *. by constructor.
Qed.

Lemma parsed_symbols_comma_free lines :
  Forall (fun record => commas (mbo_symbol record) = 0%nat)
    (omap (parse_mbo_line stod scaled_price mktime) lines).
Proof.
  induction lines as [|line lines IH]; [constructor|]. simpl.
  destruct (parse_mbo_line stod scaled_price mktime line) as [record|] eqn:E;
    [|done].
  constructor; [by eapply parsed_symbol_comma_free|done].
Qed.

End OutputFacts.

